(** * persistent.h: values overlaid on a memory-mapped file

    A shallow embedding of [src/persistent.h] (namespace [persistent]):
    the sizing of the backing file ([resize], [open]), the mapping
    ([mmap]), the two owners of a mapping ([memory<SIZE>], [alloc]) and
    the two overlays ([object<T>], [array<T>]).

    The code talks to the operating system, so the embedding threads an
    explicit [world] through every call: the files on disk, the table of
    open descriptors, the live mappings and a log of the observable
    steps (write calls, unmaps, placement constructions).  Exceptions are
    a second kind of outcome, an access outside every mapping a third.

    Integer widths are those of an LP64 Linux target, which is what the
    POSIX headers the file includes select: [size_t] has 64 bits,
    [unsigned] 32 bits, and a failed [::mmap] returns [(void* )-1]. *)

From Stdlib Require Import ZArith Lia.
From Stdlib Require Import Strings.String Strings.Byte.
From stdpp Require Import base option list gmap strings.
From Equations Require Import Equations.

Local Open Scope Z_scope.

(** ** Machine integers *)

Module cxx.

(** [size_t] arithmetic wraps modulo 2^64. *)
Definition size_t_modulus : Z := 2 ^ 64.
Definition to_size_t (z : Z) : Z := z mod size_t_modulus.

(** Conversion to [unsigned] keeps the low 32 bits. *)
Definition unsigned_modulus : Z := 2 ^ 32.
Definition to_unsigned (z : Z) : Z := z mod unsigned_modulus.

(** The length of a byte sequence, as the integer the code sees. *)
Definition len (bs : list byte) : Z := Z.of_nat (length bs).

End cxx.

(** ** The operating system, at the interface the code uses *)

Module posix.

Import cxx.

(** What the program does to the outside, in order. *)
Inductive event : Type :=
| EvWrite (fd : Z) (data : list byte)      (* ::write(fd, data, len data) *)
| EvMunmap (addr length : Z)               (* ::munmap(addr, length) *)
| EvConstruct (addr : Z) (repr : list byte)  (* new(addr) T(args...) *).

Record open_file : Type := OpenFile { of_path : string; of_pos : Z }.

Record mapping : Type := Mapping { mp_addr : Z; mp_len : Z; mp_path : string }.

Record world : Type := World {
  files : gmap string (list byte);   (* path -> contents *)
  fds : gmap Z open_file;            (* open descriptors *)
  maps : list mapping;               (* live shared mappings, newest first *)
  next_addr : Z;                     (* where the kernel places the next mapping *)
  heap_junk : nat -> byte;           (* what uninitialised heap storage holds *)
  log : list event
}.

Definition set_files (f : gmap string (list byte)) (w : world) : world :=
  World f (fds w) (maps w) (next_addr w) (heap_junk w) (log w).
Definition set_fds (t : gmap Z open_file) (w : world) : world :=
  World (files w) t (maps w) (next_addr w) (heap_junk w) (log w).
Definition set_maps (ms : list mapping) (a : Z) (w : world) : world :=
  World (files w) (fds w) ms a (heap_junk w) (log w).
Definition emit (e : event) (w : world) : world :=
  World (files w) (fds w) (maps w) (next_addr w) (heap_junk w) (log w ++ [e]).

Inductive oflag : Type := O_RDWR | O_CREAT | O_EXCL.
Inductive whence : Type := SEEK_SET | SEEK_CUR | SEEK_END.

Definition has_flag (f : oflag) (fl : list oflag) : bool :=
  existsb (fun g => match f, g with
                    | O_RDWR, O_RDWR | O_CREAT, O_CREAT | O_EXCL, O_EXCL => true
                    | _, _ => false
                    end) fl.

(** [(void* )-1], the value [::mmap] returns when it fails. *)
Definition MAP_FAILED : Z := size_t_modulus - 1.
Definition PAGE_SIZE : Z := 4096.

(** The lowest descriptor number that is not open. *)
Definition lowest_free (t : gmap Z open_file) : Z :=
  default (-1)
    (find (fun i => match t !! i with None => true | Some _ => false end)
          (seqZ 0 (Z.of_nat (size t) + 1))).

(** [::open(path, flags, S_IRUSR|S_IWUSR)]: the descriptor, or -1.
    Paths are flat names: every directory is taken to exist and every
    file to be readable and writable, so the call fails only on a
    missing file without [O_CREAT] or an existing one with [O_EXCL]. *)
Definition sys_open (path : string) (fl : list oflag) (w : world) : Z * world :=
  match files w !! path with
  | Some _ =>
      if has_flag O_CREAT fl && has_flag O_EXCL fl then (-1, w)
      else let fd := lowest_free (fds w) in
           (fd, set_fds (<[fd := OpenFile path 0]> (fds w)) w)
  | None =>
      if has_flag O_CREAT fl then
        let fd := lowest_free (fds w) in
        (fd, set_fds (<[fd := OpenFile path 0]> (fds w))
                     (set_files (<[path := []]> (files w)) w))
      else (-1, w)
  end.

(** [::close(fd)]. *)
Definition sys_close (fd : Z) (w : world) : world :=
  set_fds (delete fd (fds w)) w.

(** [::lseek(fd, offset, whence)]: the new position, or -1. *)
Definition sys_lseek (fd offset : Z) (wh : whence) (w : world) : Z * world :=
  match fds w !! fd with
  | None => (-1, w)
  | Some f =>
      let base := match wh with
                  | SEEK_SET => 0
                  | SEEK_CUR => of_pos f
                  | SEEK_END => len (default [] (files w !! of_path f))
                  end in
      let pos := base + offset in
      if pos <? 0 then (-1, w)
      else (pos, set_fds (<[fd := OpenFile (of_path f) pos]> (fds w)) w)
  end.

(** The contents of a file after [data] is written at position [pos];
    a gap between the old end and [pos] reads as zero bytes. *)
Definition write_at (c : list byte) (pos : nat) (data : list byte) : list byte :=
  take pos (c ++ replicate (pos - length c) x00) ++ data
       ++ drop (pos + length data) c.

(** [::write(fd, data, len data)] when the kernel takes all of [data]:
    the number of bytes written, or -1.  The disk is taken to have room
    and the descriptor to be writable: this write is never cut short.
    [sys_write_some] below is the call without that assumption. *)
Definition sys_write (fd : Z) (data : list byte) (w : world) : Z * world :=
  match fds w !! fd with
  | None => (-1, w)
  | Some f =>
      match files w !! of_path f with
      | None => (-1, w)
      | Some c =>
          let c' := write_at c (Z.to_nat (of_pos f)) data in
          (len data,
           emit (EvWrite fd data)
             (set_fds (<[fd := OpenFile (of_path f) (of_pos f + len data)]> (fds w))
                (set_files (<[of_path f := c']> (files w)) w)))
      end
  end.

(** [::write(fd, data, len data)] as a kernel may perform it.  With
    [how = None] the call fails (a descriptor that is not writable, an
    I/O error) and nothing changes.  With [how = Some k] the kernel
    transfers the first [k] bytes of [data] and no more (its cap on one
    call, a full disk, a signal) and returns how many it took. *)
Definition sys_write_some (how : option nat) (fd : Z) (data : list byte)
    (w : world) : Z * world :=
  match how with
  | None => (-1, w)
  | Some k =>
      match fds w !! fd with
      | None => (-1, w)
      | Some f =>
          match files w !! of_path f with
          | None => (-1, w)
          | Some c =>
              let sent := take k data in
              let c' := write_at c (Z.to_nat (of_pos f)) sent in
              (len sent,
               emit (EvWrite fd data)
                 (set_fds (<[fd := OpenFile (of_path f) (of_pos f + len sent)]> (fds w))
                    (set_files (<[of_path f := c']> (files w)) w)))
          end
      end
  end.

(** [::mmap(0, n, PROT_READ|PROT_WRITE, MAP_SHARED, fd, 0)]: the address
    of the new mapping, or [MAP_FAILED] (a zero length is EINVAL, a
    descriptor that is not open is EBADF). *)
Definition sys_mmap (n fd : Z) (w : world) : Z * world :=
  match fds w !! fd with
  | None => (MAP_FAILED, w)
  | Some f =>
      if n <=? 0 then (MAP_FAILED, w)
      else
        let a := Z.max PAGE_SIZE (next_addr w) in   (* never in page 0 *)
        let pages := (n + PAGE_SIZE - 1) / PAGE_SIZE in
        (a, set_maps (Mapping a n (of_path f) :: maps w) (a + pages * PAGE_SIZE) w)
  end.

(** [::munmap(addr, n)]: the mappings that start at [addr] go away. *)
Definition sys_munmap (addr n : Z) (w : world) : world :=
  emit (EvMunmap addr n)
    (set_maps (filter (fun m => mp_addr m ≠ addr) (maps w)) (next_addr w) w).

(** Whether the mapping holds the [n] bytes at [addr]. *)
Definition covers (addr n : Z) (m : mapping) : bool :=
  (mp_addr m <=? addr) && (addr + n <=? mp_addr m + mp_len m).

(** [c] with the bytes at offset [o] replaced by [bs]. *)
Definition splice (c : list byte) (o : nat) (bs : list byte) : list byte :=
  take o c ++ bs ++ drop (o + length bs) c.

(** A store through a shared mapping lands in the file.  [None] when
    the bytes are in no mapping, or beyond the end of the mapped file:
    the process would be killed by a signal. *)
Definition store (addr : Z) (bs : list byte) (w : world) : option world :=
  m ← find (covers addr (len bs)) (maps w);
  c ← files w !! mp_path m;
  let o := addr - mp_addr m in
  if o + len bs <=? len c
  then Some (set_files (<[mp_path m := splice c (Z.to_nat o) bs]> (files w)) w)
  else None.

(** Reading [n] bytes through a mapping. *)
Definition load (addr n : Z) (w : world) : option (list byte) :=
  m ← find (covers addr n) (maps w);
  c ← files w !! mp_path m;
  let o := addr - mp_addr m in
  if o + n <=? len c
  then Some (take (Z.to_nat n) (drop (Z.to_nat o) c))
  else None.

(** [new char[n]]: storage that nobody has initialised.  The allocation
    is taken to succeed. *)
Definition new_char_array (n : Z) (w : world) : list byte :=
  map (heap_junk w) (seq 0 (Z.to_nat n)).

End posix.

(** ** Exceptions and helpers of the tmx library *)

Module tmx.

Import cxx posix.

(** Modelled from the spec: the exception classes of [tmx/sysutil.h],
    which is not among the sources.  [syserr ctx] is the failure of a
    system call (it carries the OS error and the context string);
    [error msg] is the general error object, its message the sequence
    of chunks streamed into it with [<<]. *)
Inductive exn : Type :=
| syserr (ctx : string)
| error (msg : list chunk)
with chunk : Type :=
| Text (s : string)
| Number (n : Z)
| What (x : exn).

(** How a call ends: normally, by an exception, or by the signal that
    an access outside every mapping raises. *)
Inductive outcome (A : Type) : Type :=
| Ret (a : A) (w : world)
| Throw (x : exn) (w : world)
| Fault.
Arguments Ret {A} a w.
Arguments Throw {A} x w.
Arguments Fault {A}.

Definition M (A : Type) : Type := world -> outcome A.

Definition ret {A} (a : A) : M A := fun w => Ret a w.
Definition throw {A} (x : exn) : M A := fun w => Throw x w.
Definition bind {A B} (m : M A) (k : A -> M B) : M B := fun w =>
  match m w with
  | Ret a w' => k a w'
  | Throw x w' => Throw x w'
  | Fault => Fault
  end.
(** A system call never throws: it returns its result. *)
Definition sys {A} (f : world -> A * world) : M A := fun w =>
  let (a, w') := f w in Ret a w'.
Definition act (f : world -> world) : M unit := fun w => Ret tt (f w).
(** [try { m } catch (std::exception const& x) { h x }] *)
Definition try_catch {A} (m : M A) (h : exn -> M A) : M A := fun w =>
  match m w with
  | Throw x w' => h x w'
  | r => r
  end.
(** [m] runs inside a scope whose exit, normal or not, runs [cleanup]. *)
Definition scope_exit {A} (cleanup : M unit) (m : M A) : M A := fun w =>
  match m w with
  | Ret a w' => bind cleanup (fun _ => ret a) w'
  | Throw x w' => bind cleanup (fun _ => throw x) w'
  | Fault => Fault
  end.

(** Modelled from the spec: [enforce(cond, x)] of [tmx/sysutil.h]
    throws [x] unless [cond] holds. *)
Definition enforce (cond : bool) (x : exn) : M unit :=
  if cond then ret tt else throw x.

(** Modelled from the spec: the destructor of [fd_guard]
    ([tmx/sysutil.h]) releases the descriptor it holds; the spec lets
    the descriptor go as soon as the mapping exists. *)
Definition fd_guard_dtor (fd : Z) : M unit :=
  if fd <? 0 then ret tt else act (sys_close fd).

End tmx.

Declare Scope cxx_scope.
Delimit Scope cxx_scope with cxx.
Notation "'let*' x ':=' m 'in' k" := (tmx.bind m (fun x => k))
  (at level 10, x pattern, m at level 100, k at level 200) : cxx_scope.
Notation "m ';;' k" := (tmx.bind m (fun _ => k))
  (at level 100, k at level 200, right associativity) : cxx_scope.

(** ** namespace persistent *)

Module persistent.

Import cxx posix tmx.
Local Open Scope cxx_scope.

(** [size_t resize(int fd, size_t n = 0)], over what the kernel does
    with the one [::write] that the function makes. *)
Definition resize_with (write : Z -> list byte -> world -> Z * world)
    (fd n : Z) : M Z :=
  let* off := sys (sys_lseek fd 0 SEEK_END) in
  if off <? 0 then throw (syserr "persistent::resize")
  else
    let* n :=
      (if n =? 0 then ret off
       else if to_size_t off <? n then
         let* buf := (fun w => Ret (new_char_array (to_size_t (n - off)) w) w) in
         let* r := sys (write fd buf) in
         if r <? 0 then throw (syserr "persistent::resize") else ret n
       else ret n) in
    let* _ := sys (sys_lseek fd 0 SEEK_SET) in
    ret (Z.min (to_size_t off) n).

(** [size_t resize(int fd, size_t n = 0)] when the write is taken whole. *)
Definition resize (fd n : Z) : M Z := resize_with sys_write fd n.

(** [std::pair<int,size_t> open(const std::string& file, size_t n = 0)] *)
Definition open (file : string) (n : Z) : M (Z * Z) :=
  let* fd := (if n =? 0 then ret (-1)
              else sys (sys_open file [O_RDWR; O_CREAT; O_EXCL])) in
  let* fd :=
    (if fd <? 0 then
       let* fd := sys (sys_open file [O_RDWR]) in
       enforce (0 <=? fd) (syserr ("persistent: " ++ file)) ;;
       ret fd
     else ret fd) in
  let* r := resize fd n in
  ret (fd, r).

(** [char* mmap(size_t n, int fd)] *)
Definition mmap (n fd : Z) : M Z :=
  let* m := sys (sys_mmap n fd) in
  if m =? 0 then throw (syserr "mmap") else ret m.

(** *** [template<int SIZE> class memory] *)

Record memory : Type := Memory { memory__map : Z; memory__init : Z }.

(** [memory(const std::string& file)].  [SIZE] is a [sizeof], hence
    positive: passing it for a [size_t] does not change it. *)
Definition memory_ctor (SIZE : Z) (file : string) : M memory :=
  try_catch
    (let* r := open file SIZE in
     scope_exit (fd_guard_dtor (fst r))
       (let* m := mmap SIZE (fst r) in
        ret (Memory m (snd r))))
    (fun x => throw (error [Text file; Text ": "; What x])).

(** [memory(memory&& m)]: the new handle, and [m] as it is left. *)
Definition memory_move (m : memory) : memory * memory :=
  let this := Memory 0 0 in
  (Memory (memory__map m) (memory__init m),
   Memory (memory__map this) (memory__init this)).

(** [~memory()] *)
Definition memory_dtor (SIZE : Z) (m : memory) : M unit :=
  if memory__map m =? 0 then ret tt
  else act (sys_munmap (memory__map m) SIZE).

(** [size_t initialized() const] *)
Definition memory_initialized (m : memory) : Z := memory__init m.

(** [char* map()] *)
Definition memory_map (m : memory) : Z := memory__map m.

(** *** [class alloc] *)

Record alloc : Type := Alloc { alloc__map : Z; alloc__init : Z; alloc__size : Z }.

(** [alloc(size_t n, const std::string& file)] *)
Definition alloc_ctor (n : Z) (file : string) : M alloc :=
  let _size := n in
  try_catch
    (let* r := open file _size in
     scope_exit (fd_guard_dtor (fst r))
       (let* m := mmap _size (fst r) in
        ret (Alloc m (snd r) _size)))
    (fun x => throw (error [Text file; Text ": "; What x])).

(** [alloc(const std::string& file)] *)
Definition alloc_open (file : string) : M alloc :=
  try_catch
    (let* r := open file 0 in
     let _size := snd r in
     scope_exit (fd_guard_dtor (fst r))
       (let* m := mmap _size (fst r) in
        let _init := _size in
        ret (Alloc m _init _size)))
    (fun x => throw (error [Text file; Text ": "; What x])).

(** [alloc(alloc&& m)]: the new handle, and [m] as it is left. *)
Definition alloc_move (m : alloc) : alloc * alloc :=
  let this := Alloc 0 0 0 in
  (Alloc (alloc__map m) (alloc__init m) (alloc__size m),
   Alloc (alloc__map this) (alloc__init this) (alloc__size this)).

(** [alloc& operator=(alloc&& m)] on two distinct handles: [*this]
    and [m] as they are left.  ([&m == this] changes nothing.) *)
Definition alloc_move_assign (this m : alloc) : alloc * alloc :=
  (Alloc (alloc__map m) (alloc__init m) (alloc__size m),
   Alloc (alloc__map this) (alloc__init this) (alloc__size this)).

(** [~alloc()] *)
Definition alloc_dtor (m : alloc) : M unit :=
  if alloc__map m =? 0 then ret tt
  else act (sys_munmap (alloc__map m) (alloc__size m)).

(** [size_t initialized() const] *)
Definition alloc_initialized (m : alloc) : Z := alloc__init m.

(** [char* map()] *)
Definition alloc_map (m : alloc) : Z := alloc__map m.

(** [unsigned size() const] *)
Definition alloc_size (m : alloc) : Z := to_unsigned (alloc__size m).

(** *** The element type [T] *)

(** What the overlays need to know of [T]: [sizeof(T)], the types of
    the constructor arguments, and the object representation that
    [new(p) T(args...)] leaves at [p].  The constructor is taken to
    return, and to determine all [sizeof(T)] bytes of the object. *)
Class object_type : Type := ObjectType {
  sizeof : Z;
  ctor_args : Type;
  construct : ctor_args -> list byte;
  sizeof_range : 0 < sizeof < size_t_modulus;
  construct_len : forall args, len (construct args) = sizeof
}.

(** [new(p) T(args...)] *)
Definition placement_new `{T : object_type} (p : Z) (args : ctor_args) : M unit :=
  fun w => match store p (construct args) w with
           | Some w' => Ret tt (emit (EvConstruct p (construct args)) w')
           | None => Fault
           end.

(** *** [template<class T> class object : public memory<sizeof(T)>] *)

Record object : Type := Object { object_base : memory; object__po : Z }.

(** [object(const std::string& file, Args...args)] *)
Definition object_ctor `{T : object_type} (file : string) (args : ctor_args)
  : M object :=
  let* base := memory_ctor sizeof file in
  let _po := memory_map base in
  (if memory_initialized base <? sizeof
   then placement_new _po args
   else ret tt) ;;
  ret (Object base _po).

(** [object(object<T>&&) = default]: the base is moved, the pointer copied. *)
Definition object_move (o : object) : object * object :=
  let (b, b') := memory_move (object_base o) in
  (Object b (object__po o), Object b' (object__po o)).

(** [~object()]: the body is empty, then the base is destroyed. *)
Definition object_dtor `{T : object_type} (o : object) : M unit :=
  memory_dtor sizeof (object_base o).

(** [T& operator*()]: the address of the live [T]. *)
Definition object_deref (o : object) : Z := object__po o.

(** *** [template<class T> class array : public alloc] *)

Record array : Type := Array { array_base : alloc; array__size : Z; array__po : Z }.

(** [size_t size() const] *)
Definition array_size (a : array) : Z := array__size a.

(** [size_t length() const] *)
Definition array_length (a : array) : Z := array_size a.

(** [T& operator[](size_t n)]: the address of element [n]. *)
Definition index `{T : object_type} (a : array) (n : Z) : M Z :=
  if array__size a <=? n
  then throw (error [Text "persistent: overlimit: "; Number n;
                     Text " >= "; Number (array__size a)])
  else ret (array__po a + n * sizeof).

(** [T const& operator[](size_t n) const] *)
Definition index_const `{T : object_type} (a : array) (n : Z) : M Z :=
  if array__size a <=? n
  then throw (error [Text "persistent: overlimit: "; Number n;
                     Text " >= "; Number (array__size a)])
  else ret (array__po a + n * sizeof).

(** [for(size_t i = ...; i < _size; ++i) new(_po+i) T(args...);]
    entered with the loop variable at [i]. *)
Equations? construct_from `{T : object_type} (_po _size : Z) (args : ctor_args)
    (i : Z) (w : world) : outcome unit by wf (Z.to_nat (_size - i)) lt :=
  construct_from _po _size args i w with Z_lt_dec i _size := {
    | right _ := Ret tt w
    | left _ with placement_new (_po + i * sizeof) args w := {
        | Ret _ w' := construct_from _po _size args (i + 1) w'
        | Throw x w' := Throw x w'
        | Fault := Fault } }.
Proof. lia. Qed.

(** [array(size_t n, const std::string& file, Args...args)] *)
Definition array_ctor `{T : object_type} (n : Z) (file : string)
    (args : ctor_args) : M array :=
  let* base := alloc_ctor (to_size_t (n * sizeof)) file in
  let _size := n in
  let _po := alloc_map base in
  construct_from _po _size args (alloc_initialized base / sizeof) ;;
  ret (Array base _size _po).

(** [array(const std::string& file)] *)
Definition array_open `{T : object_type} (file : string) : M array :=
  let* base := alloc_open file in
  ret (Array base (alloc_size base / sizeof) (alloc_map base)).

(** [array(array<T>&&) = default] *)
Definition array_move (a : array) : array * array :=
  let (b, b') := alloc_move (array_base a) in
  (Array b (array__size a) (array__po a), Array b' (array__size a) (array__po a)).

(** [array& operator=(array<T>&&) = default] on two distinct handles. *)
Definition array_move_assign (this a : array) : array * array :=
  let (b, b') := alloc_move_assign (array_base this) (array_base a) in
  (Array b (array__size a) (array__po a), Array b' (array__size a) (array__po a)).

(** [~array()]: the body is empty, then the base is destroyed. *)
Definition array_dtor (a : array) : M unit := alloc_dtor (array_base a).

(** [T* operator->()], [const T* operator->() const] *)
Definition object_arrow (o : object) : Z := object__po o.

(** [T* begin()], [const T* begin() const], [const T* cbegin() const] *)
Definition array_begin (a : array) : Z := array__po a.

(** [T* end()], [const T* end() const], [const T* cend() const] *)
Definition array_end `{T : object_type} (a : array) : Z :=
  array__po a + array__size a * sizeof.

End persistent.

(** ** Worlds that the statements below speak of *)

Module after.

Import cxx posix.

(** What [path] holds; nothing when there is no such file. *)
Definition contents (path : string) (w : world) : list byte :=
  default [] (files w !! path).

(** [fd] open on [path], positioned at the start. *)
Definition opened (fd : Z) (path : string) (w : world) : world :=
  set_fds (<[fd := OpenFile path 0]> (fds w)) w.

(** The file [path], which held [c], extended to [n] bytes by one
    write of a buffer taken from the heap as it was. *)
Definition extended (fd : Z) (path : string) (c : list byte) (n : Z)
    (w : world) : world :=
  let buf := new_char_array (n - len c) w in
  emit (EvWrite fd buf) (set_files (<[path := c ++ buf]> (files w)) w).

(** The first [n] bytes of [path] mapped at the next free address. *)
Definition mapped_addr (w : world) : Z := Z.max PAGE_SIZE (next_addr w).
Definition mapped (n : Z) (path : string) (w : world) : world :=
  set_maps (Mapping (mapped_addr w) n path :: maps w)
           (mapped_addr w + (n + PAGE_SIZE - 1) / PAGE_SIZE * PAGE_SIZE) w.

(** The placement constructions of elements [from, to) of the array at
    [po], each of [sz] bytes with representation [repr]. *)
Definition constructions (po sz : Z) (repr : list byte) (from to : Z)
  : list event :=
  (fun i => EvConstruct (po + i * sz) repr) <$> seqZ from (to - from).

(** The bytes of element [i] in a file of elements of [sz] bytes. *)
Definition element (sz : Z) (c : list byte) (i : Z) : list byte :=
  take (Z.to_nat sz) (drop (Z.to_nat (i * sz)) c).

(** What every constructor throws when [open] finds no file. *)
Definition no_such_file (path : string) : tmx.exn :=
  tmx.error [tmx.Text path; tmx.Text ": ";
             tmx.What (tmx.syserr ("persistent: " ++ path))].

End after.

(** ** Concrete element types and worlds *)

Module demo.

Import cxx posix persistent.

(** [struct V { unsigned char a, b, c; };] *)
Definition V : object_type :=
  ObjectType 3 (byte * byte * byte) (fun x => [x.1.1; x.1.2; x.2])
             (conj eq_refl eq_refl) (fun _ => eq_refl).

(** [unsigned char] *)
Definition uchar : object_type :=
  ObjectType 1 byte (fun b => [b]) (conj eq_refl eq_refl) (fun _ => eq_refl).

(** No files, nothing open, and a heap full of 0xff. *)
Definition bare : world := World ∅ ∅ [] 65536 (fun _ => xff) [].

(** The file "f" holds five bytes and is open as descriptor 3. *)
Definition five : world :=
  World {["f" := [x01; x02; x03; x04; x05]]} {[3 := OpenFile "f" 0]}
        [] 65536 (fun _ => xff) [].

(** The file "e" exists and is empty. *)
Definition hollow : world := World {["e" := []]} ∅ [] 65536 (fun _ => xff) [].

(** The file "big" holds 2^32 bytes. *)
Definition big_file : list byte := replicate (Z.to_nat (2 ^ 32)) x00.
Definition big : world :=
  World {["big" := big_file]} ∅ [] 65536 (fun _ => xff) [].

(** Two elements of [V] constructed on the fresh path "v": the handle
    and the world that [array<V>(2, "v", 1, 2, 3)] leaves. *)
Definition two_v : array := Array (Alloc 65536 0 6) 2 65536.
Definition after_two_v : world :=
  World {["v" := [x01; x02; x03; x01; x02; x03]]} ∅
        [Mapping 65536 6 "v"] 69632 (fun _ => xff)
        [EvWrite 0 [xff; xff; xff; xff; xff; xff];
         EvConstruct 65536 [x01; x02; x03];
         EvConstruct 65539 [x01; x02; x03]].

(** [demo.five] after [resize] has asked for seven bytes and the kernel
    has taken one byte of the two offered. *)
Definition five_cut : world :=
  World {["f" := [x01; x02; x03; x04; x05; xff]]} {[3 := OpenFile "f" 0]}
        [] 65536 (fun _ => xff) [EvWrite 3 [xff; xff]].

(** [alloc(7, "f")] on [demo.five]: the handle and the world it leaves. *)
Definition seven : alloc := Alloc 65536 5 7.
Definition after_seven : world :=
  World {["f" := [x01; x02; x03; x04; x05; xff; xff]]} {[3 := OpenFile "f" 0]}
        [Mapping 65536 7 "f"] 69632 (fun _ => xff) [EvWrite 0 [xff; xff]].

End demo.

(** ** Facts *)

Module facts.
Import cxx posix tmx persistent after.
Local Open Scope cxx_scope.

Lemma len_nonneg bs : 0 <= len bs.
Proof. unfold len. lia. Qed.

Lemma len_app a b : len (a ++ b) = len a + len b.
Proof. unfold len. rewrite length_app. lia. Qed.

Lemma to_size_t_small z : 0 <= z < size_t_modulus -> to_size_t z = z.
Proof. intros H. unfold to_size_t. apply Z.mod_small. exact H. Qed.

Lemma write_at_end c data : write_at c (Z.to_nat (len c)) data = c ++ data.
Proof.
  unfold write_at, len. rewrite Nat2Z.id, Nat.sub_diag. cbn [replicate].
  rewrite app_nil_r, firstn_all.
  rewrite drop_ge by lia. by rewrite app_nil_r.
Qed.

Lemma len_new_char_array n w : 0 <= n -> len (new_char_array n w) = n.
Proof.
  intros H. unfold len, new_char_array. rewrite length_map, length_seq. lia.
Qed.

Lemma lowest_free_spec (t : gmap Z open_file) :
  t !! lowest_free t = None /\ 0 <= lowest_free t.
Proof.
  unfold lowest_free.
  destruct (find _ _) as [i|] eqn:E; cbn.
  - apply find_some in E as [Hin Hi].
    apply list_elem_of_In, elem_of_seqZ in Hin.
    split; [| lia]. by destruct (t !! i).
  - exfalso.
    assert (Hsub : list_to_set (seqZ 0 (Z.of_nat (size t) + 1)) ⊆ dom t).
    { intros i Hi. apply elem_of_list_to_set in Hi.
      pose proof (find_none _ _ E i (proj1 (list_elem_of_In _ _) Hi)) as Hf.
      cbn in Hf. apply elem_of_dom. destruct (t !! i); [eauto | discriminate]. }
    apply subseteq_size in Hsub.
    rewrite size_list_to_set in Hsub by apply NoDup_seqZ.
    rewrite length_seqZ, size_dom in Hsub. lia.
Qed.

(** *** Sizing the file *)

Section resize_facts.
Context (w : world) (fd : Z) (path : string) (pos : Z) (c : list byte).
Hypothesis Hfd : fds w !! fd = Some (OpenFile path pos).
Hypothesis Hfile : files w !! path = Some c.
Hypothesis Hlen : len c < size_t_modulus.

Lemma lseek_end :
  sys_lseek fd 0 SEEK_END w
  = (len c, set_fds (<[fd := OpenFile path (len c)]> (fds w)) w).
Proof.
  unfold sys_lseek. rewrite Hfd. cbn. rewrite Hfile. cbn.
  rewrite Z.add_0_r.
  pose proof (len_nonneg c).
  destruct (Z.ltb_spec (len c) 0); [lia | reflexivity].
Qed.

(** Nothing to add: the file is left as it is, the position at 0. *)
Lemma resize_enough n :
  n = 0 \/ 0 < n <= len c ->
  resize fd n w
  = Ret (if n =? 0 then len c else n)
        (set_fds (<[fd := OpenFile path 0]> (fds w)) w).
Proof.
  intros Hn. pose proof (len_nonneg c) as Hc.
  unfold resize, resize_with, bind, sys. rewrite lseek_end.
  destruct (Z.ltb_spec (len c) 0) as [|_]; [lia |].
  rewrite (to_size_t_small (len c)) by lia.
  destruct (Z.eqb_spec n 0) as [->|Hn0].
  - cbn. unfold sys_lseek. cbn. rewrite lookup_insert_eq. cbn.
    rewrite insert_insert_eq, Z.min_id. reflexivity.
  - destruct (Z.ltb_spec (len c) n) as [|_]; [lia |].
    cbn. unfold sys_lseek. cbn. rewrite lookup_insert_eq. cbn.
    rewrite insert_insert_eq, Z.min_r by lia. reflexivity.
Qed.

(** The file is too short: the missing bytes are appended. *)
Lemma resize_grow n :
  len c < n < size_t_modulus ->
  resize fd n w
  = Ret (len c)
        (let buf := new_char_array (n - len c) w in
         emit (EvWrite fd buf)
           (set_fds (<[fd := OpenFile path 0]> (fds w))
              (set_files (<[path := c ++ buf]> (files w)) w))).
Proof.
  intros Hn. pose proof (len_nonneg c) as Hc.
  unfold resize, resize_with, bind, sys. rewrite lseek_end.
  destruct (Z.ltb_spec (len c) 0) as [|_]; [lia |].
  rewrite (to_size_t_small (len c)) by lia.
  destruct (Z.eqb_spec n 0) as [|_]; [lia |].
  destruct (Z.ltb_spec (len c) n) as [_|]; [| lia].
  rewrite (to_size_t_small (n - len c)) by lia.
  unfold sys_write. cbn. rewrite lookup_insert_eq. cbn. rewrite Hfile.
  rewrite write_at_end.
  rewrite len_new_char_array by lia.
  destruct (Z.ltb_spec (n - len c) 0) as [|_]; [lia |].
  cbn. unfold sys_lseek. cbn. rewrite lookup_insert_eq. cbn.
  rewrite !insert_insert_eq, Z.min_l by lia. reflexivity.
Qed.
(** The same three cases whatever the kernel does with the write. *)
Lemma resize_with_enough write n :
  n = 0 \/ 0 < n <= len c ->
  resize_with write fd n w
  = Ret (if n =? 0 then len c else n)
        (set_fds (<[fd := OpenFile path 0]> (fds w)) w).
Proof.
  intros Hn. pose proof (len_nonneg c) as Hc.
  unfold resize_with, bind, sys. rewrite lseek_end.
  destruct (Z.ltb_spec (len c) 0) as [|_]; [lia |].
  rewrite (to_size_t_small (len c)) by lia.
  destruct (Z.eqb_spec n 0) as [->|Hn0].
  - cbn. unfold sys_lseek. cbn. rewrite lookup_insert_eq. cbn.
    rewrite insert_insert_eq, Z.min_id. reflexivity.
  - destruct (Z.ltb_spec (len c) n) as [|_]; [lia |].
    cbn. unfold sys_lseek. cbn. rewrite lookup_insert_eq. cbn.
    rewrite insert_insert_eq, Z.min_r by lia. reflexivity.
Qed.

Lemma resize_with_cut (k : nat) n :
  len c < n < size_t_modulus ->
  resize_with (sys_write_some (Some k)) fd n w
  = Ret (len c)
        (let buf := new_char_array (n - len c) w in
         emit (EvWrite fd buf)
           (set_fds (<[fd := OpenFile path 0]> (fds w))
              (set_files (<[path := c ++ take k buf]> (files w)) w))).
Proof.
  intros Hn. pose proof (len_nonneg c) as Hc.
  unfold resize_with, bind, sys. rewrite lseek_end.
  destruct (Z.ltb_spec (len c) 0) as [|_]; [lia |].
  rewrite (to_size_t_small (len c)) by lia.
  destruct (Z.eqb_spec n 0) as [|_]; [lia |].
  destruct (Z.ltb_spec (len c) n) as [_|]; [| lia].
  rewrite (to_size_t_small (n - len c)) by lia.
  unfold sys_write_some. cbn. rewrite lookup_insert_eq. cbn. rewrite Hfile.
  rewrite write_at_end.
  change (new_char_array (n - len c) (set_fds _ w))
    with (new_char_array (n - len c) w).
  pose proof (len_nonneg (take k (new_char_array (n - len c) w))) as Hsent.
  destruct (Z.ltb_spec (len (take k (new_char_array (n - len c) w))) 0) as [|_];
    [lia |].
  cbn. unfold sys_lseek. cbn. rewrite lookup_insert_eq. cbn.
  rewrite !insert_insert_eq, Z.min_l by lia. reflexivity.
Qed.

Lemma resize_with_failed n :
  len c < n < size_t_modulus ->
  resize_with (sys_write_some None) fd n w
  = Throw (syserr "persistent::resize")
          (set_fds (<[fd := OpenFile path (len c)]> (fds w)) w).
Proof.
  intros Hn. pose proof (len_nonneg c) as Hc.
  unfold resize_with, bind, sys. rewrite lseek_end.
  destruct (Z.ltb_spec (len c) 0) as [|_]; [lia |].
  rewrite (to_size_t_small (len c)) by lia.
  destruct (Z.eqb_spec n 0) as [|_]; [lia |].
  destruct (Z.ltb_spec (len c) n) as [_|]; [| lia].
  reflexivity.
Qed.
End resize_facts.

(** *** Opening the file *)

Lemma mapped_addr_nonzero w : (mapped_addr w =? 0) = false.
Proof. unfold mapped_addr, PAGE_SIZE. apply Z.eqb_neq. lia. Qed.

Lemma mmap_ok n fd path pos w :
  fds w !! fd = Some (OpenFile path pos) -> 0 < n ->
  mmap n fd w = Ret (mapped_addr w) (mapped n path w).
Proof.
  intros Hfd Hn. unfold mmap, bind, sys, sys_mmap. rewrite Hfd.
  destruct (Z.leb_spec n 0) as [|_]; [lia |].
  cbn -[Z.max Z.div Z.mul Z.add]. fold (mapped_addr w). rewrite mapped_addr_nonzero. reflexivity.
Qed.

(** A failed mapping is not noticed: [(void* )-1] is not null. *)
Lemma mmap_zero_length fd w : mmap 0 fd w = Ret MAP_FAILED w.
Proof.
  unfold mmap, bind, sys, sys_mmap. destruct (fds w !! fd); reflexivity.
Qed.

Section open_facts.
Context (w : world) (path : string).
Let fd := lowest_free (fds w).

Lemma open_existing c n :
  files w !! path = Some c -> len c < size_t_modulus ->
  n = 0 \/ 0 < n <= len c ->
  open path n w = Ret (fd, if n =? 0 then len c else n) (opened fd path w).
Proof.
  intros Hfile Hlen Hn.
  destruct (lowest_free_spec (fds w)) as [Hfree Hpos]. fold fd in Hfree, Hpos.
  assert (Hopen : sys_open path [O_RDWR] w = (fd, opened fd path w)).
  { unfold sys_open. rewrite Hfile. reflexivity. }
  assert (Hres : resize fd n (opened fd path w)
                 = Ret (if n =? 0 then len c else n) (opened fd path w)).
  { rewrite (resize_enough (opened fd path w) fd path 0 c); try done.
    - cbn. by rewrite insert_insert_eq.
    - cbn. apply lookup_insert_eq. }
  unfold open, bind.
  destruct (Z.eqb_spec n 0) as [->|Hn0].
  - cbn. unfold sys at 1. rewrite Hopen.
    destruct (Z.leb_spec 0 fd); [| lia]. cbn. by rewrite Hres.
  - unfold sys at 1. unfold sys_open at 1. rewrite Hfile. cbn.
    unfold sys at 1. rewrite Hopen.
    destruct (Z.leb_spec 0 fd); [| lia]. cbn. by rewrite Hres.
Qed.

Lemma open_grow n :
  len (contents path w) < n < size_t_modulus ->
  open path n w
  = Ret (fd, len (contents path w))
        (opened fd path (extended fd path (contents path w) n w)).
Proof.
  intros Hn. pose proof (len_nonneg (contents path w)) as Hc.
  destruct (lowest_free_spec (fds w)) as [Hfree Hpos]. fold fd in Hfree, Hpos.
  assert (Hres : forall c w1,
             files w1 !! path = Some c -> heap_junk w1 = heap_junk w ->
             len c < n ->
             resize fd n (opened fd path w1)
             = Ret (len c) (opened fd path (extended fd path c n w1))).
  { intros c w1 Hc1 Hj Hlt.
    rewrite (resize_grow (opened fd path w1) fd path 0 c).
    - destruct w1. unfold opened, extended, new_char_array. cbn.
      by rewrite insert_insert_eq.
    - cbn. apply lookup_insert_eq.
    - exact Hc1.
    - lia.
    - lia. }
  unfold open, bind.
  destruct (Z.eqb_spec n 0) as [|_]; [lia |].
  unfold contents in *.
  destruct (files w !! path) as [c|] eqn:Hfile; cbn in Hn, Hc |- *.
  - unfold sys at 1. unfold sys_open at 1. rewrite Hfile. cbn.
    unfold sys at 1. unfold sys_open. rewrite Hfile. cbn. fold fd.
    destruct (Z.leb_spec 0 fd); [| lia]. cbn.
    fold (opened fd path w). rewrite (Hres c w) by (done || lia).
    reflexivity.
  - unfold sys at 1. unfold sys_open at 1. rewrite Hfile. cbn. fold fd.
    destruct (Z.ltb_spec fd 0); [lia |].
    unfold ret at 1.
    change (set_fds _ (set_files ?f w)) with (opened fd path (set_files f w)).
    rewrite (Hres [] (set_files (<[path := []]> (files w)) w)).
    + destruct w. unfold opened, extended, new_char_array. cbn.
      by rewrite insert_insert_eq.
    + cbn. apply lookup_insert_eq.
    + reflexivity.
    + exact (proj1 Hn).
Qed.

Lemma open_missing :
  files w !! path = None ->
  open path 0 w = Throw (syserr ("persistent: " ++ path)) w.
Proof.
  intros Hfile. unfold open, bind, sys, sys_open. cbn. by rewrite Hfile.
Qed.
End open_facts.

(** *** The owners of a mapping *)

(** [memory<SIZE>] and [alloc] open and map in the same way. *)
Lemma memory_ctor_as_alloc SIZE file w :
  memory_ctor SIZE file w
  = match alloc_ctor SIZE file w with
    | Ret a w' => Ret (Memory (alloc__map a) (alloc__init a)) w'
    | Throw x w' => Throw x w'
    | Fault => Fault
    end.
Proof.
  unfold memory_ctor, alloc_ctor, try_catch, bind, scope_exit.
  destruct (open file SIZE w) as [[fd r] w1|x w1|]; cbn; [| done | done].
  destruct (mmap SIZE fd w1) as [m w2|x w2|]; cbn; [| | done].
  - unfold bind. destruct (fd_guard_dtor fd w2); done.
  - unfold bind. destruct (fd_guard_dtor fd w2); done.
Qed.

Lemma close_opened fd path w :
  fds w !! fd = None -> sys_close fd (opened fd path w) = w.
Proof.
  intros H. destruct w. unfold sys_close, opened, set_fds. cbn in *.
  by rewrite delete_insert_eq, delete_id.
Qed.

Section alloc_facts.
Context (w : world) (path : string).
Let fd := lowest_free (fds w).

Lemma alloc_ctor_enough c n :
  files w !! path = Some c -> len c < size_t_modulus -> 0 < n <= len c ->
  alloc_ctor n path w = Ret (Alloc (mapped_addr w) n n) (mapped n path w).
Proof.
  intros Hfile Hlen Hn.
  destruct (lowest_free_spec (fds w)) as [Hfree Hpos]. fold fd in Hfree, Hpos.
  unfold alloc_ctor, try_catch, bind, scope_exit.
  rewrite (open_existing w path c n) by (done || lia). fold fd. cbn [fst snd].
  rewrite (mmap_ok n fd path 0) by (lia || apply lookup_insert_eq).
  destruct (Z.eqb_spec n 0) as [|_]; [lia |].
  unfold fd_guard_dtor, bind. destruct (Z.ltb_spec fd 0); [lia |].
  unfold act, ret. do 2 f_equal.
  destruct w. unfold sys_close, mapped, opened, set_fds, set_maps. cbn in *.
  by rewrite delete_insert_eq, delete_id.
Qed.

Lemma alloc_ctor_grow n :
  len (contents path w) < n < size_t_modulus ->
  alloc_ctor n path w
  = Ret (Alloc (mapped_addr w) (len (contents path w)) n)
        (mapped n path (extended fd path (contents path w) n w)).
Proof.
  intros Hn. pose proof (len_nonneg (contents path w)) as Hc.
  destruct (lowest_free_spec (fds w)) as [Hfree Hpos]. fold fd in Hfree, Hpos.
  unfold alloc_ctor, try_catch, bind, scope_exit.
  rewrite (open_grow w path n) by done. fold fd. cbn [fst snd].
  rewrite (mmap_ok n fd path 0) by (lia || apply lookup_insert_eq).
  unfold fd_guard_dtor, bind. destruct (Z.ltb_spec fd 0); [lia |].
  unfold act, ret. do 2 f_equal.
  destruct w. unfold sys_close, mapped, opened, extended, set_fds, set_maps.
  cbn in *. by rewrite delete_insert_eq, delete_id.
Qed.

(** A zero length means discovery, and the mapping fails unnoticed. *)
Lemma alloc_ctor_zero c :
  files w !! path = Some c -> len c < size_t_modulus ->
  alloc_ctor 0 path w = Ret (Alloc MAP_FAILED (len c) 0) w.
Proof.
  intros Hfile Hlen.
  destruct (lowest_free_spec (fds w)) as [Hfree Hpos]. fold fd in Hfree, Hpos.
  unfold alloc_ctor, try_catch, bind, scope_exit.
  rewrite (open_existing w path c 0) by (done || lia). fold fd. cbn [fst snd].
  rewrite mmap_zero_length.
  unfold fd_guard_dtor, bind. destruct (Z.ltb_spec fd 0); [lia |].
  unfold act, ret. cbn. by rewrite close_opened.
Qed.

Lemma alloc_open_existing c :
  files w !! path = Some c -> 0 < len c < size_t_modulus ->
  alloc_open path w
  = Ret (Alloc (mapped_addr w) (len c) (len c)) (mapped (len c) path w).
Proof.
  intros Hfile Hlen.
  destruct (lowest_free_spec (fds w)) as [Hfree Hpos]. fold fd in Hfree, Hpos.
  unfold alloc_open, try_catch, bind, scope_exit.
  rewrite (open_existing w path c 0) by (done || lia). fold fd. cbn [fst snd].
  change (0 =? 0) with true. cbn iota.
  rewrite (mmap_ok (len c) fd path 0) by (lia || apply lookup_insert_eq).
  unfold fd_guard_dtor, bind. destruct (Z.ltb_spec fd 0); [lia |].
  unfold act, ret. do 2 f_equal.
  destruct w. unfold sys_close, mapped, opened, set_fds, set_maps. cbn in *.
  by rewrite delete_insert_eq, delete_id.
Qed.

Lemma alloc_open_empty :
  files w !! path = Some [] ->
  alloc_open path w = Ret (Alloc MAP_FAILED 0 0) w.
Proof.
  intros Hfile.
  destruct (lowest_free_spec (fds w)) as [Hfree Hpos]. fold fd in Hfree, Hpos.
  unfold alloc_open, try_catch, bind, scope_exit.
  rewrite (open_existing w path [] 0) by (done || lia). fold fd. cbn [fst snd].
  change (0 =? 0) with true. cbn iota. change (len []) with 0.
  rewrite mmap_zero_length.
  unfold fd_guard_dtor, bind. destruct (Z.ltb_spec fd 0); [lia |].
  unfold act, ret. cbn. by rewrite close_opened.
Qed.
End alloc_facts.

(** *** Bytes in place *)

Lemma splice_nil c o : splice c o [] = c.
Proof. unfold splice. cbn. rewrite Nat.add_0_r. apply take_drop. Qed.

Lemma splice_length c o bs :
  (o + length bs <= length c)%nat -> length (splice c o bs) = length c.
Proof.
  intros H. unfold splice. rewrite !length_app, length_take, length_drop. lia.
Qed.

Lemma splice_splice c o a b :
  (o + length a <= length c)%nat ->
  splice (splice c o a) (o + length a) b = splice c o (a ++ b).
Proof.
  intros H. unfold splice.
  assert (Ho : length (take o c) = o) by (rewrite length_take; lia).
  rewrite (app_assoc (take o c) a).
  assert (Hoa : length (take o c ++ a) = (o + length a)%nat)
    by (rewrite length_app; lia).
  rewrite take_app_length' by done.
  rewrite (drop_app_add' _ _ (o + length a)%nat) by done.
  rewrite drop_drop, length_app, <- !app_assoc.
  do 3 f_equal. by rewrite Nat.add_assoc.
Qed.

(** A store changes the file behind the mapping and nothing else. *)
Lemma store_log addr bs w w1 : store addr bs w = Some w1 -> log w1 = log w.
Proof.
  unfold store. intros Hst.
  destruct (find _ _) as [m|]; [| done]. cbn in Hst.
  destruct (files w !! mp_path m); [| done]. cbn in Hst.
  destruct (_ <=? _); [| done]. by injection Hst as <-.
Qed.

(** Stores and loads inside the newest mapping. *)
Lemma store_head w po o B path ms c bs :
  maps w = Mapping po B path :: ms ->
  files w !! path = Some c ->
  0 <= o -> o + len bs <= B -> o + len bs <= len c ->
  store (po + o) bs w
  = Some (set_files (<[path := splice c (Z.to_nat o) bs]> (files w)) w).
Proof.
  intros Hmaps Hfile Ho HB Hc.
  unfold store. rewrite Hmaps. cbn [find]. unfold covers. cbn [mp_addr mp_len].
  destruct (Z.leb_spec po (po + o)); [| lia].
  destruct (Z.leb_spec (po + o + len bs) (po + B)); [| lia].
  cbn. rewrite Hfile. cbn.
  replace (po + o - po) with o by lia.
  destruct (Z.leb_spec (o + len bs) (len c)); [| lia].
  reflexivity.
Qed.

Lemma load_head w po o n B path ms c :
  maps w = Mapping po B path :: ms ->
  files w !! path = Some c ->
  0 <= o -> o + n <= B -> o + n <= len c ->
  load (po + o) n w = Some (take (Z.to_nat n) (drop (Z.to_nat o) c)).
Proof.
  intros Hmaps Hfile Ho HB Hc.
  unfold load. rewrite Hmaps. cbn [find]. unfold covers. cbn [mp_addr mp_len].
  destruct (Z.leb_spec po (po + o)); [| lia].
  destruct (Z.leb_spec (po + o + n) (po + B)); [| lia].
  cbn. rewrite Hfile. cbn.
  replace (po + o - po) with o by lia.
  destruct (Z.leb_spec (o + n) (len c)); [| lia].
  reflexivity.
Qed.

Lemma constructions_nil po sz repr i n :
  n <= i -> constructions po sz repr i n = [].
Proof. intros H. unfold constructions. rewrite seqZ_nil by lia. done. Qed.

Lemma constructions_cons po sz repr i n :
  i < n ->
  constructions po sz repr i n
  = EvConstruct (po + i * sz) repr :: constructions po sz repr (i + 1) n.
Proof.
  intros H. unfold constructions. rewrite seqZ_cons by lia. cbn.
  do 3 f_equal; lia.
Qed.

Section loop_facts.
Context `{T : object_type}.
Context (po N : Z) (args : ctor_args).

Lemma construct_from_unfold i w :
  construct_from po N args i w
  = if i <? N
    then match placement_new (po + i * sizeof) args w with
         | Ret _ w' => construct_from po N args (i + 1) w'
         | Throw x w' => Throw x w'
         | Fault => Fault
         end
    else Ret tt w.
Proof.
  simp construct_from.
  destruct (Z_lt_dec i N) as [Hlt|Hge]; cbn.
  - destruct (Z.ltb_spec i N); [| lia].
    destruct (placement_new (po + i * sizeof) args w); reflexivity.
  - destruct (Z.ltb_spec i N); [lia | reflexivity].
Qed.

(** The loop has nothing to do once [i] has reached the size. *)
Lemma construct_from_done i w : N <= i -> construct_from po N args i w = Ret tt w.
Proof.
  intros H. rewrite construct_from_unfold.
  destruct (Z.ltb_spec i N); [lia | reflexivity].
Qed.

(** Whatever the loop constructs, it constructs elements i, i+1, ...
    up to the size, in this order. *)
Lemma construct_from_log (k : nat) : forall i w w',
  N - i <= Z.of_nat k ->
  construct_from po N args i w = Ret tt w' ->
  log w' = log w ++ constructions po sizeof (construct args) i N.
Proof.
  induction k as [|k IH]; intros i w w' Hk; rewrite construct_from_unfold.
  - destruct (Z.ltb_spec i N); [lia |]. intros [= <-].
    rewrite constructions_nil by lia. by rewrite app_nil_r.
  - destruct (Z.ltb_spec i N) as [Hlt|Hge].
    + unfold placement_new.
      destruct (store _ _ w) as [w1|] eqn:Hst; [| done].
      intros Hrun. apply IH in Hrun; [| lia].
      rewrite Hrun, (constructions_cons _ _ _ i N) by done.
      cbn. rewrite (store_log _ _ _ _ Hst). by rewrite <- app_assoc.
    + intros [= <-]. rewrite constructions_nil by lia. by rewrite app_nil_r.
Qed.

(** Inside a mapping of a file that is long enough, every
    construction lands in the file. *)
Lemma construct_from_ok B path ms (k : nat) : forall i w c,
  maps w = Mapping po B path :: ms ->
  files w !! path = Some c ->
  0 <= i -> i + Z.of_nat k = N ->
  N * sizeof <= B -> N * sizeof <= len c ->
  construct_from po N args i w
  = Ret tt
      (World (<[path := splice c (Z.to_nat (i * sizeof))
                          (concat (replicate k (construct args)))]> (files w))
             (fds w) (maps w) (next_addr w) (heap_junk w)
             (log w ++ constructions po sizeof (construct args) i N)).
Proof.
  pose proof sizeof_range as Hsz.
  induction k as [|k IH]; intros i w c Hmaps Hfile Hi Hk HB Hc.
  - rewrite construct_from_done by lia. cbn.
    rewrite splice_nil, insert_id by done.
    rewrite constructions_nil by lia. rewrite app_nil_r.
    by destruct w.
  - rewrite construct_from_unfold.
    destruct (Z.ltb_spec i N); [| lia].
    pose proof (construct_len args) as Hrepr.
    assert (Hstore : store (po + i * sizeof) (construct args) w
            = Some (set_files
                      (<[path := splice c (Z.to_nat (i * sizeof)) (construct args)]>
                         (files w)) w)).
    { apply (store_head _ _ _ B _ ms); try done; rewrite ?Hrepr; nia. }
    unfold placement_new. rewrite Hstore.
    assert (Hfit : (Z.to_nat (i * sizeof) + length (construct args)
                    <= length c)%nat).
    { unfold len in *. nia. }
    rewrite (IH (i + 1) _ (splice c (Z.to_nat (i * sizeof)) (construct args)));
      cbn; try done; try lia.
    + rewrite insert_insert_eq.
      replace (Z.to_nat ((i + 1) * sizeof))
        with (Z.to_nat (i * sizeof) + length (construct args))%nat
        by (unfold len in *; nia).
      rewrite splice_splice by done.
      rewrite (constructions_cons _ _ _ i N) by done.
      cbn. by rewrite <- app_assoc.
    + apply lookup_insert_eq.
    + unfold len. rewrite splice_length by done. exact Hc.
Qed.
End loop_facts.

(** *** What [resize] returns and writes *)

(** C4 fails as stated: asked for size 0 on a file of five bytes,
    [resize] returns 5, not min(5, 0). *)
Lemma resize_zero_request_returns_length :
  (exists w', resize 3 0 demo.five = Ret 5 w')
  /\ (forall w', resize 3 0 demo.five
                <> Ret (Z.min (len (contents "f" demo.five)) 0) w').
Proof.
  assert (H : resize 3 0 demo.five
              = Ret 5 (set_fds (<[3 := OpenFile "f" 0]> (fds demo.five)) demo.five)).
  { by rewrite (resize_enough demo.five 3 "f" 0 [x01; x02; x03; x04; x05])
      by (done || lia). }
  split; [eauto |]. intros w'. rewrite H. intros Heq. by injection Heq.
Qed.

(** C4, amended: [resize] returns the length the file had at entry when
    the requested size is 0, and the smaller of that length and the
    requested size otherwise. *)
Theorem resize_returns_initialized_length w fd path pos c n :
  fds w !! fd = Some (OpenFile path pos) ->
  files w !! path = Some c ->
  len c < size_t_modulus ->
  0 <= n < size_t_modulus ->
  exists w', resize fd n w = Ret (if n =? 0 then len c else Z.min (len c) n) w'.
Proof.
  intros Hfd Hfile Hlen Hn.
  destruct (Z.eqb_spec n 0) as [->|Hn0].
  - rewrite (resize_enough w fd path pos c) by (done || lia). eauto.
  - destruct (Z.le_gt_cases n (len c)).
    + rewrite (resize_enough w fd path pos c) by (done || lia).
      destruct (Z.eqb_spec n 0); [lia |]. rewrite Z.min_r by lia. eauto.
    + rewrite (resize_grow w fd path pos c) by (done || lia).
      rewrite Z.min_l by lia. eauto.
Qed.

Lemma resize_returns_initialized_length_witness :
  exists w', resize 3 2 demo.five = Ret 2 w'.
Proof.
  apply (resize_returns_initialized_length demo.five 3 "f" 0
           [x01; x02; x03; x04; x05] 2);
    [reflexivity | reflexivity | reflexivity | split; [discriminate | reflexivity]].
Defined.

(** C7 fails as stated: the bytes that extend the file are those of a
    buffer nobody initialised; here they are 0xff, not zero. *)
Lemma resize_appends_heap_junk :
  exists w', resize 3 7 demo.five = Ret 5 w'
             /\ contents "f" w' = [x01; x02; x03; x04; x05; xff; xff]
             /\ drop 5 (contents "f" w') <> replicate 2 x00.
Proof.
  rewrite (resize_grow demo.five 3 "f" 0 [x01; x02; x03; x04; x05])
    by (done || (split; reflexivity)).
  eexists. split; [reflexivity |]. split; [reflexivity |]. cbn. discriminate.
Qed.


(** C7, amended: when the file is shorter than the requested size,
    [resize] makes one write, at the end of the file, of a buffer of
    exactly requested size minus current length bytes that it has
    allocated and never initialised.  The file then holds its old
    contents followed by the bytes that the write transferred, which
    are bytes from the start of that buffer: whatever the heap held;
    a write that fails makes [resize] throw and leaves the files alone.
    When the write is taken whole, the file has the requested size. *)
Theorem resize_appends_missing_bytes w fd path pos c n :
  fds w !! fd = Some (OpenFile path pos) ->
  files w !! path = Some c ->
  len c < n < size_t_modulus ->
  let buf := new_char_array (n - len c) w in
  len buf = n - len c
  /\ (forall k : nat,
        exists w',
          resize_with (sys_write_some (Some k)) fd n w = Ret (len c) w'
          /\ log w' = log w ++ [EvWrite fd buf]
          /\ contents path w' = c ++ take k buf)
  /\ (exists w',
        resize_with (sys_write_some None) fd n w
        = Throw (syserr "persistent::resize") w'
        /\ files w' = files w /\ log w' = log w)
  /\ (exists w',
        resize fd n w = Ret (len c) w'
        /\ log w' = log w ++ [EvWrite fd buf]
        /\ contents path w' = c ++ buf
        /\ len (contents path w') = n).
Proof.
  intros Hfd Hfile Hn buf. pose proof (len_nonneg c) as Hc.
  assert (Hbuf : len buf = n - len c)
    by (apply len_new_char_array; lia).
  split; [exact Hbuf |]. split; [| split].
  - intros k.
    rewrite (resize_with_cut w fd path pos c) by (done || lia).
    eexists. split; [reflexivity |]. split; [reflexivity |].
    unfold contents. cbn. by rewrite lookup_insert_eq.
  - rewrite (resize_with_failed w fd path pos c) by (done || lia).
    by eexists.
  - rewrite (resize_grow w fd path pos c) by (done || lia).
    eexists. split; [reflexivity |]. split; [reflexivity |].
    unfold contents. cbn. rewrite lookup_insert_eq. cbn.
    split; [reflexivity |]. fold buf. rewrite len_app, Hbuf. lia.
Qed.

Lemma resize_appends_missing_bytes_witness :
  let buf := new_char_array (7 - 5) demo.five in
  len buf = 7 - 5
  /\ (forall k : nat,
        exists w',
          resize_with (sys_write_some (Some k)) 3 7 demo.five = Ret 5 w'
          /\ log w' = log demo.five ++ [EvWrite 3 buf]
          /\ contents "f" w' = [x01; x02; x03; x04; x05] ++ take k buf)
  /\ (exists w',
        resize_with (sys_write_some None) 3 7 demo.five
        = Throw (syserr "persistent::resize") w'
        /\ files w' = files demo.five /\ log w' = log demo.five)
  /\ (exists w',
        resize 3 7 demo.five = Ret 5 w'
        /\ log w' = log demo.five ++ [EvWrite 3 buf]
        /\ contents "f" w' = [x01; x02; x03; x04; x05] ++ buf
        /\ len (contents "f" w') = 7).
Proof.
  apply (resize_appends_missing_bytes demo.five 3 "f" 0
           [x01; x02; x03; x04; x05] 7);
    [reflexivity | reflexivity | split; reflexivity].
Defined.

(** *** A mapping that fails *)

(** C8, the code at the failing input: the system call fails on a zero
    length and returns [MAP_FAILED]; [mmap] tests for a null pointer,
    so it throws nothing and hands [MAP_FAILED] back as the address.
    An array opened on an empty file gets that address as its [_po]. *)
Theorem mmap_returns_failed_mapping :
  sys_mmap 0 3 demo.five = (MAP_FAILED, demo.five)
  /\ mmap 0 3 demo.five = Ret MAP_FAILED demo.five
  /\ array_open (T := demo.uchar) "e" demo.hollow
     = Ret (Array (Alloc MAP_FAILED 0 0) 0 MAP_FAILED) demo.hollow.
Proof. split; [| split]; vm_compute; reflexivity. Qed.

(** In fact the exception of [mmap] is out of reach: the system call
    returns an address or [MAP_FAILED], never a null pointer. *)
Lemma mmap_never_throws n fd w : exists m w', mmap n fd w = Ret m w'.
Proof.
  unfold mmap, bind, sys, sys_mmap.
  destruct (fds w !! fd); [| by eexists _, _].
  destruct (n <=? 0); [by eexists _, _ |].
  cbn -[Z.max Z.div Z.mul Z.add]. fold (mapped_addr w).
  rewrite mapped_addr_nonzero. by eexists _, _.
Qed.

(** *** Indexed access *)

(** C6: [operator[]], const or not, throws exactly when the index is
    not below [size()], and otherwise returns the address of element
    [n], without touching the world. *)
Theorem index_checks_bounds `{T : object_type} (a : array) (n : Z) (w : world) :
  let overlimit := error [Text "persistent: overlimit: "; Number n;
                          Text " >= "; Number (array_size a)] in
  (index a n w = Throw overlimit w <-> array_size a <= n)
  /\ (index a n w = Ret (array__po a + n * sizeof) w <-> n < array_size a)
  /\ (index_const a n w = Throw overlimit w <-> array_size a <= n)
  /\ (index_const a n w = Ret (array__po a + n * sizeof) w <-> n < array_size a).
Proof.
  unfold index, index_const, array_size.
  destruct (Z.leb_spec (array__size a) n); cbn; unfold throw, ret;
    repeat split; intros; try done; lia.
Qed.

(** *** Moving a handle *)

(** C9 fails as stated, twice over.  After [a = std::move(b)] on two
    [alloc] handles that each own a mapping, the teardown of [b]
    unmaps what [a] owned.  And an [array] that has been moved from
    still has its element count and its pointer into the mapping. *)
Lemma moved_from_is_not_inert :
  (exists a b w1 w2 w3,
      alloc_ctor 8 "a" demo.bare = Ret a w1
      /\ alloc_ctor 4 "b" w1 = Ret b w2
      /\ alloc_dtor (snd (alloc_move_assign a b)) w2 = Ret tt w3
      /\ log w3 = log w2 ++ [EvMunmap (alloc_map a) 8]
      /\ maps w3 = [Mapping (alloc_map b) 4 "b"])
  /\ (exists a w1,
        array_ctor (T := demo.V) 2 "v" (x01, x02, x03) demo.bare = Ret a w1
        /\ snd (array_move a) <> Array (Alloc 0 0 0) 0 0
        /\ load (array__po (snd (array_move a))) 3 w1 = Some [x01; x02; x03]
        /\ index (T := demo.V) (snd (array_move a)) 1 w1
           = Ret (alloc_map (array_base a) + 3) w1).
Proof.
  split.
  - eexists _, _, _, _, _.
    do 4 (split; [vm_compute; reflexivity |]). vm_compute; reflexivity.
  - eexists _, _.
    split; [vm_compute; reflexivity |].
    split; [vm_compute; discriminate |].
    split; vm_compute; reflexivity.
Qed.

(** C9, amended: every wrapper can be moved.  Move construction hands
    the mapping to the new handle and leaves the [memory] or [alloc]
    part of the source with a null map pointer and zero lengths, so
    that its teardown neither unmaps nor writes: the world is left as
    it is.  An [object] or [array] that has been moved from keeps its
    element pointer, and the [array] its element count.  Move
    assignment of [alloc] and [array] exchanges the two [alloc] parts:
    the source ends up with what the target owned and its teardown is
    the one the target would have had. *)
Theorem move_leaves_owner_empty `{T : object_type}
    (m : memory) (l k : alloc) (o : object) (a this : array) (SIZE : Z) (w : world) :
  (memory_move m = (m, Memory 0 0)
   /\ memory_dtor SIZE (snd (memory_move m)) w = Ret tt w)
  /\ (alloc_move l = (l, Alloc 0 0 0)
      /\ alloc_dtor (snd (alloc_move l)) w = Ret tt w)
  /\ (object_move o = (o, Object (Memory 0 0) (object__po o))
      /\ object_dtor (snd (object_move o)) w = Ret tt w)
  /\ (array_move a = (a, Array (Alloc 0 0 0) (array__size a) (array__po a))
      /\ array_dtor (snd (array_move a)) w = Ret tt w)
  /\ (alloc_move_assign k l = (l, k)
      /\ alloc_dtor (snd (alloc_move_assign k l)) w = alloc_dtor k w)
  /\ (array_move_assign this a
      = (a, Array (array_base this) (array__size a) (array__po a))
      /\ array_dtor (snd (array_move_assign this a)) w = array_dtor this w).
Proof.
  destruct m, l, k, o as [[] ?], a as [[] ? ?], this as [[] ? ?].
  repeat split.
Qed.

(** *** Arrays *)

Lemma len_concat_replicate (k : nat) (bs : list byte) :
  len (concat (replicate k bs)) = Z.of_nat k * len bs.
Proof.
  unfold len. induction k as [|k IH]; [done |].
  cbn [replicate concat]. rewrite length_app. lia.
Qed.

Section array_facts.
Context `{T : object_type}.
Context (w : world) (path : string) (args : ctor_args).
Let fd := lowest_free (fds w).

(** The file already covers the array: nothing is written, nothing
    constructed. *)
Lemma array_ctor_enough c n :
  files w !! path = Some c -> len c < size_t_modulus ->
  0 < n -> n * sizeof <= len c ->
  array_ctor n path args w
  = Ret (Array (Alloc (mapped_addr w) (n * sizeof) (n * sizeof)) n (mapped_addr w))
        (mapped (n * sizeof) path w).
Proof.
  intros Hfile Hlen Hn Hfit. pose proof sizeof_range as Hsz.
  unfold array_ctor, bind.
  rewrite to_size_t_small by nia.
  rewrite (alloc_ctor_enough w path c) by (done || nia).
  unfold alloc_initialized, alloc_map. cbn [alloc__init alloc__map].
  rewrite Z.div_mul by lia.
  rewrite construct_from_done by lia. reflexivity.
Qed.

(** No elements asked for: the file is opened as it is. *)
Lemma array_ctor_none c :
  files w !! path = Some c -> len c < size_t_modulus ->
  array_ctor 0 path args w
  = Ret (Array (Alloc MAP_FAILED (len c) 0) 0 MAP_FAILED) w.
Proof.
  intros Hfile Hlen. pose proof sizeof_range as Hsz.
  pose proof (len_nonneg c) as Hc.
  unfold array_ctor, bind. rewrite Z.mul_0_l.
  change (to_size_t 0) with 0.
  rewrite (alloc_ctor_zero w path c) by done.
  unfold alloc_initialized, alloc_map. cbn [alloc__init alloc__map].
  rewrite construct_from_done; [reflexivity |].
  apply Z.div_pos; lia.
Qed.

(** The file is too short: it is extended, and the elements from the
    first incomplete one on are constructed. *)
Lemma array_ctor_grow n :
  let c := contents path w in
  let built := len c / sizeof in
  len c < n * sizeof < size_t_modulus ->
  array_ctor n path args w
  = Ret (Array (Alloc (mapped_addr w) (len c) (n * sizeof)) n (mapped_addr w))
        (World (<[path := take (Z.to_nat (built * sizeof)) c
                           ++ concat (replicate (Z.to_nat (n - built))
                                                (construct args))]> (files w))
               (fds w)
               (Mapping (mapped_addr w) (n * sizeof) path :: maps w)
               (next_addr (mapped (n * sizeof) path w))
               (heap_junk w)
               (log w ++ EvWrite fd (new_char_array (n * sizeof - len c) w)
                      :: constructions (mapped_addr w) sizeof (construct args)
                                       built n)).
Proof.
  intros c built Hn. pose proof sizeof_range as Hsz.
  pose proof (len_nonneg c) as Hc.
  assert (Hbuilt : 0 <= built /\ built * sizeof <= len c /\ built < n).
  { subst built.
    assert (H0 : 0 < sizeof) by lia.
    pose proof (Z.mul_div_le (len c) sizeof H0).
    split; [apply Z.div_pos; lia |]. split; [lia |].
    apply Z.div_lt_upper_bound; lia. }
  unfold array_ctor, bind.
  rewrite to_size_t_small by lia.
  rewrite (alloc_ctor_grow w path) by done. fold fd. fold c.
  unfold alloc_initialized, alloc_map. cbn [alloc__init alloc__map]. fold built.
  set (buf := new_char_array (n * sizeof - len c) w).
  assert (Hbuf : len buf = n * sizeof - len c)
    by (apply len_new_char_array; lia).
  rewrite (construct_from_ok _ n args (n * sizeof) path (maps w)
             (Z.to_nat (n - built)) built _ (c ++ buf));
    [ | reflexivity | cbn; apply lookup_insert_eq | lia | lia | lia
      | rewrite len_app; lia ].
  cbn -[Z.max Z.div Z.mul Z.add]. rewrite insert_insert_eq.
  unfold ret. do 2 f_equal; [| by rewrite <- app_assoc].
  f_equal. unfold splice.
  rewrite take_app_le by (unfold len in *; lia).
  f_equal. rewrite drop_ge; [by rewrite app_nil_r |].
  pose proof (len_concat_replicate (Z.to_nat (n - built)) (construct args)) as Hr.
  rewrite construct_len in Hr.
  unfold len in *. rewrite length_app. nia.
Qed.
End array_facts.

(** C10: on a file that is at least as long as asked for, [open]
    writes nothing, leaves every file as it is and reports the
    requested size as initialised; a sized array of no more elements
    than the file holds constructs nothing, has the size asked for,
    and leaves the file as long as it was. *)
Theorem open_within_existing_file `{T : object_type} w path c :
  files w !! path = Some c ->
  len c < size_t_modulus ->
  (forall n, 0 < n <= len c ->
     exists fd w', open path n w = Ret (fd, n) w'
                   /\ files w' = files w /\ log w' = log w)
  /\ (forall N args, 0 <= N -> N * sizeof <= len c ->
       exists a w', array_ctor N path args w = Ret a w'
                    /\ array_size a = N
                    /\ files w' = files w /\ log w' = log w
                    /\ len (contents path w') = len c).
Proof.
  intros Hfile Hlen. split.
  - intros n Hn. rewrite (open_existing w path c n) by (done || lia).
    destruct (Z.eqb_spec n 0); [lia |]. by eexists _, _.
  - intros N args HN Hfit.
    destruct (Z.eq_dec N 0) as [->|].
    + rewrite (array_ctor_none w path args c) by done.
      eexists _, _. repeat split. unfold contents. by rewrite Hfile.
    + rewrite (array_ctor_enough w path args c) by (done || lia).
      eexists _, _. repeat split. unfold contents. cbn. by rewrite Hfile.
Qed.

Lemma open_within_existing_file_witness :
  (forall n, 0 < n <= 5 ->
     exists fd w', open "f" n demo.five = Ret (fd, n) w'
                   /\ files w' = files demo.five /\ log w' = log demo.five)
  /\ (forall N args, 0 <= N -> N * 3 <= 5 ->
       exists a w', array_ctor (T := demo.V) N "f" args demo.five = Ret a w'
                    /\ array_size a = N
                    /\ files w' = files demo.five /\ log w' = log demo.five
                    /\ len (contents "f" w') = 5).
Proof.
  apply (open_within_existing_file (T := demo.V) demo.five "f"
           [x01; x02; x03; x04; x05]); reflexivity.
Defined.

(** *** Discovery *)

Section discovery.
Context `{T : object_type}.
Context (w : world) (path : string) (c : list byte).
Hypothesis Hfile : files w !! path = Some c.
Hypothesis Hlen : len c < size_t_modulus.

(** What [array(const std::string&)] computes: the whole file is
    mapped and counted as initialised, nothing is constructed, and
    the element count is taken from the low 32 bits of the length. *)
Lemma array_open_discovers :
  exists a w', array_open path w = Ret a w'
               /\ array_size a = to_unsigned (len c) / sizeof
               /\ alloc_initialized (array_base a) = len c
               /\ alloc__size (array_base a) = len c
               /\ files w' = files w /\ log w' = log w.
Proof.
  pose proof (len_nonneg c) as Hc.
  unfold array_open, bind.
  destruct (Z.eq_dec (len c) 0) as [H0|].
  - assert (c = []) as -> by (destruct c; [done | discriminate]).
    rewrite (alloc_open_empty w path) by done. by eexists _, _.
  - rewrite (alloc_open_existing w path c) by (done || lia). by eexists _, _.
Qed.

(** Below 4 GiB the count is the one the spec gives. *)
Lemma array_open_below_4GiB :
  len c < unsigned_modulus ->
  exists a w', array_open path w = Ret a w'
               /\ array_size a = len c / sizeof
               /\ alloc_initialized (array_base a) = len c
               /\ log w' = log w.
Proof.
  intros Hsmall. pose proof (len_nonneg c) as Hc.
  destruct array_open_discovers as (a & w' & Hrun & Hsize & Hinit & _ & _ & Hlog).
  exists a, w'. repeat split; try done.
  rewrite Hsize. unfold to_unsigned. by rewrite Z.mod_small by lia.
Qed.
End discovery.

Lemma len_big_file : len demo.big_file = 2 ^ 32.
Proof.
  unfold len, demo.big_file. rewrite length_replicate. apply Z2Nat.id. done.
Qed.

(** C5, the code at the failing input: a file of 2^32 bytes holds 2^32
    elements of one byte, and the array opened on it has size 0. *)
Theorem array_open_loses_high_bits :
  exists a w', array_open (T := demo.uchar) "big" demo.big = Ret a w'
               /\ array_size a = 0
               /\ len (contents "big" demo.big) / sizeof (object_type := demo.uchar)
                  = 4294967296.
Proof.
  assert (Hfile : files demo.big !! "big" = Some demo.big_file)
    by apply lookup_singleton_eq.
  destruct (array_open_discovers (T := demo.uchar) demo.big "big" demo.big_file Hfile)
    as (a & w' & Hrun & Hsize & _).
  { rewrite len_big_file. done. }
  exists a, w'. split; [exact Hrun |]. split.
  - rewrite Hsize, len_big_file. reflexivity.
  - unfold contents. rewrite Hfile. cbn [default from_option id].
    rewrite len_big_file. reflexivity.
Qed.

Lemma contents_nonempty path w :
  0 < len (contents path w) -> files w !! path = Some (contents path w).
Proof.
  unfold contents. destruct (files w !! path); [done |].
  change (len (default [] None)) with 0. lia.
Qed.

(** *** Elements of a file *)

Lemma element_app_l sz a b i :
  0 < sz -> 0 <= i -> (i + 1) * sz <= len a ->
  element sz (a ++ b) i = element sz a i.
Proof.
  intros Hsz Hi Hfit. unfold element, len in *.
  rewrite drop_app_le by nia.
  apply take_app_le. rewrite length_drop. nia.
Qed.

Lemma element_take sz c k i :
  0 < sz -> 0 <= i -> (i + 1) * sz <= Z.of_nat k ->
  element sz (take k c) i = element sz c i.
Proof.
  intros Hsz Hi Hfit. unfold element.
  rewrite !take_drop_commute, take_take. do 2 f_equal. nia.
Qed.

Lemma element_app_r sz a r b i :
  0 < sz -> len a = b * sz -> 0 <= b <= i ->
  element sz (a ++ r) i = element sz r (i - b).
Proof.
  intros Hsz Ha Hi. unfold element, len in *.
  rewrite drop_app_ge by nia. do 2 f_equal. nia.
Qed.

Lemma element_concat_replicate sz r (k : nat) : forall j,
  0 < sz -> len r = sz -> 0 <= j < Z.of_nat k ->
  element sz (concat (replicate k r)) j = r.
Proof.
  induction k as [|k IH]; intros j Hsz Hr Hj; [lia |].
  cbn [replicate concat].
  destruct (Z.eq_dec j 0) as [->|Hj0].
  - unfold element. cbn [Z.mul Z.to_nat drop].
    apply take_app_length'. unfold len in Hr. lia.
  - rewrite (element_app_r sz r _ 1 j) by lia.
    apply IH; lia.
Qed.

(** *** Which elements are constructed *)

Lemma elem_of_constructions po sz repr from to addr r :
  EvConstruct addr r ∈ constructions po sz repr from to
  <-> exists i, from <= i < to /\ addr = po + i * sz /\ r = repr.
Proof.
  unfold constructions. rewrite list_elem_of_fmap. split.
  - intros (i & [= -> ->] & Hi). apply elem_of_seqZ in Hi. exists i.
    split; [lia | done].
  - intros (i & Hi & -> & ->). exists i. split; [done |].
    apply elem_of_seqZ. lia.
Qed.


(** C2: for every count whose array fits [size_t], the sized
    constructor returns, having computed the built count as
    [initialized() / sizeof(T)] and constructed, one after the other
    and each from the given arguments, the elements from the built
    count up to the requested count: these and no others.  Afterwards
    each of them reads as the representation of the arguments, and the
    elements below the built count read as the bytes the file held. *)
Theorem array_ctor_constructs_from_built_count `{T : object_type}
    (w : world) (path : string) (args : ctor_args) (n : Z) :
  0 <= n ->
  n * sizeof < size_t_modulus ->
  len (contents path w) < size_t_modulus ->
  (n = 0 -> is_Some (files w !! path)) ->
  exists base w1 a w',
    alloc_ctor (to_size_t (n * sizeof)) path w = Ret base w1
    /\ array_ctor n path args w = Ret a w'
    /\ a = Array base n (alloc_map base)
    /\ let built := alloc_initialized base / sizeof in
       log w' = log w1 ++ constructions (array__po a) sizeof (construct args) built n
       /\ (forall i r, EvConstruct (array__po a + i * sizeof) r
                         ∈ constructions (array__po a) sizeof (construct args) built n
                       <-> (built <= i < n /\ r = construct args))
       /\ (forall i, built <= i < n ->
             load (array__po a + i * sizeof) sizeof w' = Some (construct args))
       /\ (forall i, 0 <= i < built -> i < n ->
             load (array__po a + i * sizeof) sizeof w'
             = Some (element sizeof (contents path w) i)).
Proof.
  intros Hn Hmax Hlen Hzero. pose proof sizeof_range as Hsz.
  set (c := contents path w) in *. pose proof (len_nonneg c) as Hc.
  assert (H0 : 0 < sizeof) by lia.
  pose proof (Z.mul_div_le (len c) sizeof H0) as Hfloor.
  assert (Hmem : forall po built i r,
             EvConstruct (po + i * sizeof) r
               ∈ constructions po sizeof (construct args) built n
             <-> (built <= i < n /\ r = construct args)).
  { intros po built i r. rewrite elem_of_constructions. split.
    - intros (j & Hj & Heq & ->). assert (i = j) as -> by nia. done.
    - intros [Hi ->]. by exists i. }
  destruct (Z.eq_dec n 0) as [->|Hn0].
  { destruct (Hzero eq_refl) as [c0 Hfile].
    assert (c = c0) as <- by (subst c; unfold contents; by rewrite Hfile).
    rewrite Z.mul_0_l. change (to_size_t 0) with 0.
    rewrite (alloc_ctor_zero w path c) by done.
    rewrite (array_ctor_none w path args c) by done.
    eexists _, _, _, _. split; [reflexivity |]. split; [reflexivity |].
    split; [reflexivity |]. cbv zeta.
    unfold alloc_initialized, alloc_map. cbn [array__po alloc__init alloc__map].
    assert (0 <= len c / sizeof) by (apply Z.div_pos; lia).
    split; [by rewrite constructions_nil, app_nil_r |].
    split; [apply Hmem |]. split; intros; lia. }
  rewrite to_size_t_small by nia.
  destruct (Z.le_gt_cases (n * sizeof) (len c)) as [Hle|Hgt].
  - assert (Hfile : files w !! path = Some c)
      by (apply contents_nonempty; fold c; nia).
    rewrite (alloc_ctor_enough w path c) by (done || nia).
    rewrite (array_ctor_enough w path args c) by (done || lia).
    eexists _, _, _, _. split; [reflexivity |]. split; [reflexivity |].
    split; [reflexivity |]. cbv zeta.
    unfold alloc_initialized, alloc_map. cbn [array__po alloc__init alloc__map].
    rewrite Z.div_mul by lia.
    split; [by rewrite constructions_nil, app_nil_r |].
    split; [apply Hmem |]. split; [intros; lia |].
    intros i Hi _.
    by rewrite (load_head _ _ (i * sizeof) sizeof (n * sizeof) path (maps w) c)
      by (done || nia).
  - rewrite (alloc_ctor_grow w path) by (fold c; lia). fold c.
    pose proof (array_ctor_grow w path args n) as Hrun. cbv zeta in Hrun.
    fold c in Hrun. rewrite Hrun by lia. clear Hrun.
    set (built := len c / sizeof) in *.
    assert (Hbuilt : 0 <= built < n).
    { subst built. split; [apply Z.div_pos; lia |].
      apply Z.div_lt_upper_bound; lia. }
    set (pre := take (Z.to_nat (built * sizeof)) c).
    set (reps := concat (replicate (Z.to_nat (n - built)) (construct args))).
    assert (Hpre : len pre = built * sizeof).
    { subst pre. unfold len in *. rewrite length_take. lia. }
    assert (Hreps : len reps = (n - built) * sizeof).
    { subst reps. rewrite len_concat_replicate, construct_len. lia. }
    assert (Hload : forall i, 0 <= i < n ->
               load (mapped_addr w + i * sizeof) sizeof
                    (World (<[path := pre ++ reps]> (files w)) (fds w)
                       (Mapping (mapped_addr w) (n * sizeof) path :: maps w)
                       (next_addr (mapped (n * sizeof) path w)) (heap_junk w)
                       (log w ++ EvWrite (lowest_free (fds w))
                                   (new_char_array (n * sizeof - len c) w)
                              :: constructions (mapped_addr w) sizeof
                                   (construct args) built n))
               = Some (element sizeof (pre ++ reps) i)).
    { intros i Hi.
      by rewrite (load_head _ _ (i * sizeof) sizeof (n * sizeof) path (maps w)
                    (pre ++ reps));
        [ | reflexivity | cbn; apply lookup_insert_eq | nia | nia
          | rewrite len_app; nia ]. }
    eexists _, _, _, _. split; [reflexivity |]. split; [reflexivity |].
    split; [reflexivity |]. cbv zeta.
    unfold alloc_initialized, alloc_map. cbn [array__po alloc__init alloc__map].
    fold built.
    split; [unfold mapped, extended, set_maps, set_files, emit; cbn [log];
            by rewrite <- app_assoc |].
    split; [apply Hmem |]. split.
    + intros i Hi. rewrite Hload by lia. f_equal.
      rewrite (element_app_r sizeof pre reps built i) by lia.
      subst reps. apply element_concat_replicate; [lia | apply construct_len | lia].
    + intros i Hi Hin. rewrite Hload by lia. f_equal.
      rewrite element_app_l by nia.
      subst pre. apply element_take; rewrite ?Z2Nat.id; nia.
Qed.

Lemma array_ctor_constructs_from_built_count_witness :
  exists base w1 a w',
    alloc_ctor (to_size_t (7 * 1)) "f" demo.five = Ret base w1
    /\ array_ctor (T := demo.uchar) 7 "f" x2a demo.five = Ret a w'
    /\ a = Array base 7 (alloc_map base)
    /\ let built := alloc_initialized base / 1 in
       log w' = log w1 ++ constructions (array__po a) 1 [x2a] built 7
       /\ (forall i r, EvConstruct (array__po a + i * 1) r
                         ∈ constructions (array__po a) 1 [x2a] built 7
                       <-> (built <= i < 7 /\ r = [x2a]))
       /\ (forall i, built <= i < 7 ->
             load (array__po a + i * 1) 1 w' = Some [x2a])
       /\ (forall i, 0 <= i < built -> i < 7 ->
             load (array__po a + i * 1) 1 w'
             = Some (element 1 [x01; x02; x03; x04; x05] i)).
Proof.
  apply (array_ctor_constructs_from_built_count (T := demo.uchar)
           demo.five "f" x2a 7);
    [discriminate | reflexivity | reflexivity | intros H; discriminate H].
Defined.

(** C3: on a file that holds exactly N1 elements, the constructor for
    N2 > N1 elements appends to the file by one write, leaves the bytes
    of elements 0 .. N1-1 as they were, and constructs elements
    N1 .. N2-1 and no others. *)
Theorem array_growth_preserves_prefix `{T : object_type}
    (w : world) (path : string) (c : list byte) (N1 N2 : Z) (args : ctor_args) :
  files w !! path = Some c ->
  len c = N1 * sizeof ->
  N1 < N2 ->
  N2 * sizeof < size_t_modulus ->
  exists a w' fd buf,
    array_ctor N2 path args w = Ret a w'
    /\ array_size a = N2
    /\ contents path w'
       = c ++ concat (replicate (Z.to_nat (N2 - N1)) (construct args))
    /\ take (Z.to_nat (N1 * sizeof)) (contents path w') = c
    /\ log w' = log w ++ EvWrite fd buf
                      :: constructions (array__po a) sizeof (construct args) N1 N2.
Proof.
  intros Hfile Hlen Hlt Hmax. pose proof sizeof_range as Hsz.
  assert (Hc : contents path w = c) by (unfold contents; by rewrite Hfile).
  pose proof (array_ctor_grow w path args N2) as Hrun.
  assert (Hbuilt : len c / sizeof = N1) by (rewrite Hlen; apply Z.div_mul; lia).
  assert (Htake : take (Z.to_nat (N1 * sizeof)) c = c)
    by (apply take_ge; unfold len in Hlen; lia).
  cbv zeta in Hrun. rewrite Hc, Hbuilt, Htake in Hrun.
  rewrite Hrun by nia.
  eexists _, _, _, _. split; [reflexivity |]. split; [reflexivity |].
  cbn -[Z.max Z.div Z.mul Z.add]. unfold contents. cbn. rewrite lookup_insert_eq. cbn.
  split; [reflexivity |]. split; [| reflexivity].
  rewrite <- Hlen. unfold len. rewrite Nat2Z.id. apply take_app_length.
Qed.

Lemma array_growth_preserves_prefix_witness :
  exists a w' fd buf,
    array_ctor (T := demo.uchar) 7 "f" x2a demo.five = Ret a w'
    /\ array_size a = 7
    /\ contents "f" w' = [x01; x02; x03; x04; x05] ++ [x2a; x2a]
    /\ take 5 (contents "f" w') = [x01; x02; x03; x04; x05]
    /\ log w' = log demo.five ++ EvWrite fd buf
                      :: constructions (array__po a) 1 [x2a] 5 7.
Proof.
  apply (array_growth_preserves_prefix (T := demo.uchar) demo.five "f"
           [x01; x02; x03; x04; x05] 5 7 x2a); reflexivity.
Defined.

(** *** Single objects *)

Section object_facts.
Context `{T : object_type}.
Context (w : world) (path : string) (args : ctor_args).
Let fd := lowest_free (fds w).

(** The file already holds a whole [T]: it is mapped, no more. *)
Lemma object_ctor_reopen c :
  files w !! path = Some c -> len c < size_t_modulus -> sizeof <= len c ->
  object_ctor path args w
  = Ret (Object (Memory (mapped_addr w) sizeof) (mapped_addr w))
        (mapped sizeof path w).
Proof.
  intros Hfile Hlen Hfit. pose proof sizeof_range as Hsz.
  unfold object_ctor, bind. rewrite memory_ctor_as_alloc.
  rewrite (alloc_ctor_enough w path c) by (done || lia).
  unfold memory_initialized, memory_map. cbn [memory__init memory__map alloc__init alloc__map].
  rewrite Z.ltb_irrefl. reflexivity.
Qed.

(** The file is missing or too short: it is extended to a whole [T],
    and the [T] is constructed over all of it. *)
Lemma object_ctor_fresh :
  let c := contents path w in
  len c < sizeof ->
  object_ctor path args w
  = Ret (Object (Memory (mapped_addr w) (len c)) (mapped_addr w))
        (World (<[path := construct args]> (files w))
               (fds w)
               (Mapping (mapped_addr w) sizeof path :: maps w)
               (next_addr (mapped sizeof path w))
               (heap_junk w)
               (log w ++ [EvWrite fd (new_char_array (sizeof - len c) w);
                          EvConstruct (mapped_addr w) (construct args)])).
Proof.
  intros c Hshort. pose proof sizeof_range as Hsz.
  pose proof (len_nonneg c) as Hc.
  pose proof (construct_len args) as Hrepr.
  unfold object_ctor, bind. rewrite memory_ctor_as_alloc.
  rewrite (alloc_ctor_grow w path) by (fold c; lia). fold fd. fold c.
  unfold memory_initialized, memory_map. cbn [memory__init memory__map alloc__init alloc__map].
  destruct (Z.ltb_spec (len c) sizeof); [| lia].
  set (buf := new_char_array (sizeof - len c) w).
  assert (Hbuf : len buf = sizeof - len c)
    by (apply len_new_char_array; lia).
  unfold placement_new.
  rewrite <- (Z.add_0_r (mapped_addr w)) at 1.
  rewrite (store_head _ _ 0 sizeof path (maps w) (c ++ buf));
    [ | reflexivity | cbn; apply lookup_insert_eq | lia | lia
      | rewrite len_app; lia ].
  unfold ret, emit, set_files, mapped, extended, set_maps.
  cbn -[Z.max Z.div Z.mul Z.add]. rewrite insert_insert_eq.
  fold buf. do 2 f_equal; [| by rewrite <- app_assoc].
  f_equal. unfold splice. cbn [take Nat.add app Z.to_nat].
  rewrite drop_ge; [by rewrite app_nil_r |].
  unfold len in *. rewrite length_app. lia.
Qed.
End object_facts.

(** C1: the constructor of [object<T>] constructs a [T] at the mapped
    address from the given arguments when [initialized()] is below
    [sizeof(T)], and only then; otherwise it constructs nothing, leaves
    every file as it is, and the [T] it exposes is the bytes the file
    held.  So after the [T] has been overwritten through the mapping
    and the handle torn down, a second constructor call on the same
    path, whatever its arguments, constructs nothing and exposes the
    overwritten bytes. *)
Theorem object_ctor_constructs_unless_initialized `{T : object_type}
    (w : world) (path : string) (args : ctor_args) :
  len (contents path w) < size_t_modulus ->
  exists o w',
    object_ctor path args w = Ret o w'
    /\ memory_initialized (object_base o) = Z.min (len (contents path w)) sizeof
    /\ object__po o = memory_map (object_base o)
    /\ (memory_initialized (object_base o) < sizeof ->
        (exists fd buf,
            log w' = log w ++ [EvWrite fd buf;
                               EvConstruct (object__po o) (construct args)])
        /\ load (object__po o) sizeof w' = Some (construct args))
    /\ (sizeof <= memory_initialized (object_base o) ->
        log w' = log w /\ files w' = files w
        /\ load (object__po o) sizeof w'
           = Some (take (Z.to_nat sizeof) (contents path w)))
    /\ (forall v args2 w2 w3,
          len v = sizeof ->
          store (object__po o) v w' = Some w2 ->
          object_dtor o w2 = Ret tt w3 ->
          exists o2 w4,
            object_ctor path args2 w3 = Ret o2 w4
            /\ log w4 = log w3
            /\ load (object__po o2) sizeof w4 = Some v).
Proof.
  intros Hlen. pose proof sizeof_range as Hsz.
  pose proof (construct_len args) as Hrepr.
  set (c := contents path w) in *. pose proof (len_nonneg c) as Hc.
  (* what the file holds once the constructor has returned, and the
     mapping through which it is seen *)
  assert (Hmain : exists o w' c',
    object_ctor path args w = Ret o w'
    /\ object_base o = Memory (mapped_addr w) (Z.min (len c) sizeof)
    /\ object__po o = mapped_addr w
    /\ maps w' = Mapping (mapped_addr w) sizeof path :: maps w
    /\ files w' !! path = Some c' /\ sizeof <= len c' < size_t_modulus
    /\ (len c < sizeof ->
        c' = construct args
        /\ exists fd buf,
            log w' = log w ++ [EvWrite fd buf;
                               EvConstruct (mapped_addr w) (construct args)])
    /\ (sizeof <= len c -> c' = c /\ log w' = log w /\ files w' = files w)).
  { destruct (Z.lt_ge_cases (len c) sizeof) as [Hshort|Hfit].
    - rewrite (object_ctor_fresh w path args) by done. fold c.
      eexists _, _, (construct args). split; [reflexivity |].
      rewrite Z.min_l by lia.
      split; [reflexivity |]. split; [reflexivity |]. split; [reflexivity |].
      split; [cbn; apply lookup_insert_eq |].
      split; [lia |]. split; [| lia].
      intros _. split; [reflexivity |]. by eexists _, _.
    - assert (Hfile : files w !! path = Some c)
        by (apply contents_nonempty; fold c; lia).
      rewrite (object_ctor_reopen w path args c) by done.
      eexists _, _, c. split; [reflexivity |].
      rewrite Z.min_r by lia.
      split; [reflexivity |]. split; [reflexivity |]. split; [reflexivity |].
      split; [exact Hfile |]. split; [lia |]. split; [lia |]. done. }
  destruct Hmain as (o & w' & c' & Hrun & Hbase & Hpo & Hmaps & Hfile' & Hlen'
                     & Hfresh & Hreopen).
  assert (Hload : load (object__po o) sizeof w'
                  = Some (take (Z.to_nat sizeof) c')).
  { rewrite Hpo, <- (Z.add_0_r (mapped_addr w)).
    rewrite (load_head w' _ 0 sizeof sizeof path (maps w) c') by (done || lia).
    by rewrite drop_0. }
  exists o, w'. split; [exact Hrun |].
  rewrite Hbase. cbn [memory_initialized memory_map memory__init memory__map].
  split; [reflexivity |]. split; [exact Hpo |].
  split; [| split].
  - intros Hlt. destruct Hfresh as [-> Hlog]; [lia |].
    rewrite Hpo. split; [exact Hlog |].
    rewrite Hpo in Hload. rewrite Hload. f_equal.
    apply take_ge. unfold len in Hrepr. lia.
  - intros Hge. destruct Hreopen as (-> & Hlog & Hfiles); [lia |].
    split; [exact Hlog |]. split; [exact Hfiles |].
    rewrite Hload. subst c. unfold contents. rewrite <- Hfiles, Hfile'. done.
  - intros v args2 w2 w3 Hv Hstore Hdtor.
    rewrite Hpo, <- (Z.add_0_r (mapped_addr w)) in Hstore.
    rewrite (store_head w' _ 0 sizeof path (maps w) c') in Hstore
      by (done || lia).
    injection Hstore as <-.
    unfold object_dtor, memory_dtor in Hdtor. rewrite Hbase in Hdtor.
    cbn [memory__map] in Hdtor. rewrite mapped_addr_nonzero in Hdtor.
    injection Hdtor as <-.
    assert (Hfit : (length v <= length c')%nat) by (unfold len in *; lia).
    rewrite (object_ctor_reopen _ path args2 (splice c' 0 v)).
    + eexists _, _. split; [reflexivity |]. split; [reflexivity |].
      cbn [object__po]. rewrite <- (Z.add_0_r (mapped_addr _)).
      erewrite (load_head _ _ 0 sizeof sizeof path) ;
        [ | reflexivity | cbn; apply lookup_insert_eq | lia | lia | ].
      * rewrite drop_0. change (Z.to_nat 0) with 0%nat.
        unfold splice. rewrite take_0. cbn [Nat.add app]. f_equal.
        apply take_app_length'. unfold len in Hv. lia.
      * unfold len. rewrite splice_length by (cbn; lia). unfold len in Hlen'. lia.
    + cbn. apply lookup_insert_eq.
    + unfold len. rewrite splice_length by (cbn; lia). unfold len in Hlen'. lia.
    + unfold len. rewrite splice_length by (cbn; lia). unfold len in Hlen'. lia.
Qed.

Lemma object_ctor_constructs_unless_initialized_witness :
  exists o w',
    object_ctor (T := demo.V) "v" (x01, x02, x03) demo.bare = Ret o w'
    /\ memory_initialized (object_base o) = 0
    /\ object__po o = memory_map (object_base o)
    /\ (memory_initialized (object_base o) < 3 ->
        (exists fd buf,
            log w' = log demo.bare
                     ++ [EvWrite fd buf; EvConstruct (object__po o) [x01; x02; x03]])
        /\ load (object__po o) 3 w' = Some [x01; x02; x03])
    /\ (3 <= memory_initialized (object_base o) ->
        log w' = log demo.bare /\ files w' = files demo.bare
        /\ load (object__po o) 3 w' = Some [])
    /\ (forall v args2 w2 w3,
          len v = 3 ->
          store (object__po o) v w' = Some w2 ->
          object_dtor (T := demo.V) o w2 = Ret tt w3 ->
          exists o2 w4,
            object_ctor (T := demo.V) "v" args2 w3 = Ret o2 w4
            /\ log w4 = log w3
            /\ load (object__po o2) 3 w4 = Some v).
Proof.
  apply (object_ctor_constructs_unless_initialized (T := demo.V) demo.bare "v"
           (x01, x02, x03)).
  reflexivity.
Defined.

(** The end-to-end scenario of the spec: a value constructed from
    (1, 2, 3), released, and opened again with other arguments still
    reads (1, 2, 3), and the second opening constructs nothing. *)
Example reopen_keeps_first_construction :
  exists o1 w1 w2 o2 w3,
    object_ctor (T := demo.V) "v" (x01, x02, x03) demo.bare = Ret o1 w1
    /\ object_dtor (T := demo.V) o1 w1 = Ret tt w2
    /\ object_ctor (T := demo.V) "v" (x07, x08, x09) w2 = Ret o2 w3
    /\ load (object_deref o2) 3 w3 = Some [x01; x02; x03]
    /\ log w3 = log w2.
Proof.
  eexists _, _, _, _, _.
  do 4 (split; [vm_compute; reflexivity |]). vm_compute; reflexivity.
Qed.

(** ** Beyond the claims *)

(** *** What [resize] leaves behind *)


(** X1: whatever size is asked for and whatever the kernel does with
    the write, a [resize] that returns has kept the bytes the file had,
    has made the file no shorter and no longer than the larger of its
    length and the request, has left every other file and every mapping
    alone and has rewound the descriptor. *)
Theorem resize_keeps_old_bytes w fd path pos c n how r w' :
  fds w !! fd = Some (OpenFile path pos) ->
  files w !! path = Some c ->
  len c < size_t_modulus ->
  0 <= n < size_t_modulus ->
  resize_with (sys_write_some how) fd n w = Ret r w' ->
  take (length c) (contents path w') = c
  /\ len c <= len (contents path w') <= Z.max (len c) n
  /\ (forall p, p <> path -> files w' !! p = files w !! p)
  /\ fds w' !! fd = Some (OpenFile path 0)
  /\ maps w' = maps w.
Proof.
  intros Hfd Hfile Hlen Hn. pose proof (len_nonneg c) as Hc.
  destruct (Z.le_gt_cases n (len c)) as [Hle|Hgt].
  - rewrite (resize_with_enough w fd path pos c) by (done || lia).
    intros [= _ <-].
    unfold contents. cbn. rewrite Hfile. cbn.
    split; [apply firstn_all |]. split; [lia |]. split; [done |].
    split; [apply lookup_insert_eq | done].
  - destruct how as [k|].
    + rewrite (resize_with_cut w fd path pos c) by (done || lia).
      intros [= _ <-].
      pose proof (len_new_char_array (n - len c) w ltac:(lia)) as Hbuf.
      set (buf := new_char_array (n - len c) w) in *.
      assert (Hsent : 0 <= len (take k buf) <= n - len c).
      { unfold len in *. rewrite length_take. lia. }
      unfold contents. cbn. rewrite lookup_insert_eq. cbn.
      split; [apply take_app_length |].
      split; [rewrite len_app; lia |].
      split; [intros p Hp; by apply lookup_insert_ne |].
      split; [apply lookup_insert_eq | done].
    + rewrite (resize_with_failed w fd path pos c) by (done || lia). done.
Qed.

Lemma resize_keeps_old_bytes_witness :
  take 5 (contents "f" demo.five_cut) = [x01; x02; x03; x04; x05]
  /\ 5 <= len (contents "f" demo.five_cut) <= Z.max 5 7
  /\ (forall p, p <> "f" -> files demo.five_cut !! p = files demo.five !! p)
  /\ fds demo.five_cut !! 3 = Some (OpenFile "f" 0)
  /\ maps demo.five_cut = maps demo.five.
Proof.
  apply (resize_keeps_old_bytes demo.five 3 "f" 0 [x01; x02; x03; x04; x05] 7
           (Some 1%nat) 5 demo.five_cut);
    [reflexivity | reflexivity | reflexivity | split; [discriminate | reflexivity]
     | vm_compute; reflexivity].
Defined.

(** *** No file to open *)

(** X2: a size of zero means discovery, so on a path that does not
    exist the discovery constructors and the sized constructors asked
    for nothing all throw the error of [open], wrapped with the path,
    and create no file: the world is as it was. *)
Theorem missing_file_is_not_created `{T : object_type} w path (args : ctor_args) :
  files w !! path = None ->
  open path 0 w = Throw (syserr ("persistent: " ++ path)) w
  /\ alloc_open path w = Throw (no_such_file path) w
  /\ alloc_ctor 0 path w = Throw (no_such_file path) w
  /\ array_open path w = Throw (no_such_file path) w
  /\ array_ctor 0 path args w = Throw (no_such_file path) w.
Proof.
  intros Hfile. pose proof (open_missing w path Hfile) as Hopen.
  assert (Hao : alloc_open path w = Throw (no_such_file path) w)
    by (unfold alloc_open, try_catch, bind; by rewrite Hopen).
  assert (Hac : alloc_ctor 0 path w = Throw (no_such_file path) w)
    by (unfold alloc_ctor, try_catch, bind; by rewrite Hopen).
  split; [exact Hopen |]. split; [exact Hao |]. split; [exact Hac |]. split.
  - unfold array_open, bind. by rewrite Hao.
  - unfold array_ctor, bind. rewrite Z.mul_0_l.
    change (to_size_t 0) with 0. by rewrite Hac.
Qed.

Lemma missing_file_is_not_created_witness :
  open "v" 0 demo.bare = Throw (syserr "persistent: v") demo.bare
  /\ alloc_open "v" demo.bare = Throw (no_such_file "v") demo.bare
  /\ alloc_ctor 0 "v" demo.bare = Throw (no_such_file "v") demo.bare
  /\ array_open (T := demo.V) "v" demo.bare = Throw (no_such_file "v") demo.bare
  /\ array_ctor (T := demo.V) 0 "v" (x01, x02, x03) demo.bare
     = Throw (no_such_file "v") demo.bare.
Proof.
  apply (missing_file_is_not_created (T := demo.V) demo.bare "v" (x01, x02, x03)).
  reflexivity.
Defined.

(** *** What a sized owner holds *)


(** X3: when [alloc(n, path)] returns for a positive size,
    [initialized()] is the smaller of the old length of the file and
    the size, so between 0 and the size; the map pointer is not null,
    and unless it is [MAP_FAILED] the new mapping covers the size; the
    descriptor is closed again; the file is no shorter than it was and
    begins with its old bytes.  [memory<n>(path)], which exists for the
    sizes an [int] holds, returns the same mapping. *)
Theorem sized_owner_postcondition w path n a w' :
  0 < n < size_t_modulus ->
  len (contents path w) < size_t_modulus ->
  alloc_ctor n path w = Ret a w' ->
  alloc_initialized a = Z.min (len (contents path w)) n
  /\ 0 <= alloc_initialized a <= n
  /\ alloc__size a = n
  /\ alloc_map a <> 0
  /\ (alloc_map a = MAP_FAILED
      \/ maps w' = Mapping (alloc_map a) n path :: maps w)
  /\ fds w' = fds w
  /\ len (contents path w) <= len (contents path w')
  /\ take (length (contents path w)) (contents path w') = contents path w
  /\ (n < 2 ^ 31 ->
      memory_ctor n path w = Ret (Memory (alloc_map a) (alloc_initialized a)) w').
Proof.
  intros Hn Hlen. set (c := contents path w) in *.
  pose proof (len_nonneg c) as Hc.
  assert (Hnz : mapped_addr w <> 0)
    by (apply Z.eqb_neq, mapped_addr_nonzero).
  rewrite memory_ctor_as_alloc.
  destruct (Z.le_gt_cases n (len c)) as [Hle|Hgt].
  - assert (Hfile : files w !! path = Some c)
      by (apply contents_nonempty; fold c; lia).
    rewrite (alloc_ctor_enough w path c) by (done || lia).
    intros [= <- <-].
    unfold alloc_initialized, alloc_map, contents. cbn.
    rewrite Hfile. cbn. fold c.
    split; [lia |]. split; [lia |]. split; [done |]. split; [done |].
    split; [by right |]. split; [done |]. split; [lia |].
    split; [apply firstn_all | done].
  - rewrite (alloc_ctor_grow w path) by (fold c; lia). fold c.
    intros [= <- <-].
    unfold alloc_initialized, alloc_map, contents. cbn.
    rewrite lookup_insert_eq. cbn.
    split; [lia |]. split; [lia |]. split; [done |]. split; [done |].
    split; [by right |]. split; [done |].
    split; [rewrite len_app, len_new_char_array by lia; lia |].
    split; [apply take_app_length | done].
Qed.

Lemma sized_owner_postcondition_witness :
  alloc_initialized demo.seven = Z.min 5 7
  /\ 0 <= alloc_initialized demo.seven <= 7
  /\ alloc__size demo.seven = 7
  /\ alloc_map demo.seven <> 0
  /\ (alloc_map demo.seven = MAP_FAILED
      \/ maps demo.after_seven = Mapping (alloc_map demo.seven) 7 "f" :: maps demo.five)
  /\ fds demo.after_seven = fds demo.five
  /\ 5 <= len (contents "f" demo.after_seven)
  /\ take 5 (contents "f" demo.after_seven) = [x01; x02; x03; x04; x05]
  /\ (7 < 2 ^ 31 ->
      memory_ctor 7 "f" demo.five
      = Ret (Memory (alloc_map demo.seven) (alloc_initialized demo.seven))
            demo.after_seven).
Proof.
  apply (sized_owner_postcondition demo.five "f" 7 demo.seven demo.after_seven);
    [split; reflexivity | reflexivity | vm_compute; reflexivity].
Defined.

(** *** Every element after construction *)

(** X4: after the sized constructor, every index below the count can be
    read through [operator[]]: an element that the file already held
    whole reads as the file's bytes, every other element as the
    representation just constructed; an element of which the file held
    only a part is among the latter.  Indices from the count on throw. *)
Theorem array_ctor_elements `{T : object_type} w path (args : ctor_args) n :
  0 < n ->
  n * sizeof < size_t_modulus ->
  len (contents path w) < size_t_modulus ->
  exists a w',
    array_ctor n path args w = Ret a w'
    /\ array_size a = n
    /\ (forall i, 0 <= i < n ->
          index a i w' = Ret (array__po a + i * sizeof) w'
          /\ load (array__po a + i * sizeof) sizeof w'
             = Some (if i <? len (contents path w) / sizeof
                     then element sizeof (contents path w) i
                     else construct args))
    /\ (forall i, n <= i -> exists x, index a i w' = Throw x w').
Proof.
  intros Hn Hmax Hlen. pose proof sizeof_range as Hsz.
  set (c := contents path w) in *. pose proof (len_nonneg c) as Hc.
  assert (Hindex : forall (a : array) w' i,
             array__size a = n ->
             (i < n -> index a i w' = Ret (array__po a + i * sizeof) w')
             /\ (n <= i -> exists x, index a i w' = Throw x w')).
  { intros a w' i Ha. unfold index. rewrite Ha.
    destruct (Z.leb_spec n i); split; intros; try lia; [by eexists | done]. }
  assert (H0 : 0 < sizeof) by lia.
  pose proof (Z.mul_div_le (len c) sizeof H0) as Hfloor.
  destruct (Z.le_gt_cases (n * sizeof) (len c)) as [Hle|Hgt].
  - assert (Hfile : files w !! path = Some c)
      by (apply contents_nonempty; fold c; nia).
    rewrite (array_ctor_enough w path args c) by (done || lia).
    eexists _, _. split; [reflexivity |]. split; [reflexivity |].
    split; [| intros i Hi; by apply Hindex].
    intros i Hi. split; [by apply Hindex; [| lia] |].
    cbn [array__po].
    rewrite (load_head _ _ (i * sizeof) sizeof (n * sizeof) path (maps w) c)
      by (done || nia).
    assert (n <= len c / sizeof) by (apply Z.div_le_lower_bound; lia).
    destruct (Z.ltb_spec i (len c / sizeof)); [done | lia].
  - pose proof (array_ctor_grow w path args n) as Hrun. cbv zeta in Hrun.
    fold c in Hrun. rewrite Hrun by lia. clear Hrun.
    set (built := len c / sizeof) in *.
    assert (Hbuilt : 0 <= built < n).
    { subst built. split; [apply Z.div_pos; lia |].
      apply Z.div_lt_upper_bound; lia. }
    set (pre := take (Z.to_nat (built * sizeof)) c).
    set (reps := concat (replicate (Z.to_nat (n - built)) (construct args))).
    assert (Hpre : len pre = built * sizeof).
    { subst pre. unfold len in *. rewrite length_take. lia. }
    assert (Hreps : len reps = (n - built) * sizeof).
    { subst reps. rewrite len_concat_replicate, construct_len. lia. }
    eexists _, _. split; [reflexivity |]. split; [reflexivity |].
    split; [| intros i Hi; by apply Hindex].
    intros i Hi. split; [by apply Hindex; [| lia] |].
    cbn [array__po].
    rewrite (load_head _ _ (i * sizeof) sizeof (n * sizeof) path (maps w)
               (pre ++ reps));
      [ | reflexivity | cbn; apply lookup_insert_eq | nia | nia
        | rewrite len_app; nia ].
    f_equal. fold (element sizeof (pre ++ reps) i).
    destruct (Z.ltb_spec i built).
    + rewrite element_app_l by nia.
      subst pre. apply element_take; rewrite ?Z2Nat.id; nia.
    + rewrite (element_app_r sizeof pre reps built i) by lia.
      subst reps. apply element_concat_replicate; [lia | apply construct_len | lia].
Qed.

Lemma array_ctor_elements_witness :
  exists a w',
    array_ctor (T := demo.uchar) 7 "f" x2a demo.five = Ret a w'
    /\ array_size a = 7
    /\ (forall i, 0 <= i < 7 ->
          index (T := demo.uchar) a i w' = Ret (array__po a + i * 1) w'
          /\ load (array__po a + i * 1) 1 w'
             = Some (if i <? 5 / 1
                     then element 1 [x01; x02; x03; x04; x05] i
                     else [x2a]))
    /\ (forall i, 7 <= i -> exists x, index (T := demo.uchar) a i w' = Throw x w').
Proof.
  apply (array_ctor_elements (T := demo.uchar) demo.five "f" x2a 7); reflexivity.
Defined.

(** *** Discovery *)

(** X5: opened by path alone, a file shorter than 4 GiB is taken as it
    is: nothing is written or constructed, the descriptor is closed
    again, element [i] reads as the bytes of the file at [i * sizeof(T)],
    and what follows the last whole element cannot be reached. *)
Theorem discovery_reads_the_file `{T : object_type} w path c :
  files w !! path = Some c ->
  0 < len c < unsigned_modulus ->
  exists a w',
    array_open path w = Ret a w'
    /\ array_size a = len c / sizeof
    /\ alloc_initialized (array_base a) = len c
    /\ files w' = files w /\ log w' = log w /\ fds w' = fds w
    /\ (forall i, 0 <= i < len c / sizeof ->
          index a i w' = Ret (array__po a + i * sizeof) w'
          /\ load (array__po a + i * sizeof) sizeof w'
             = Some (element sizeof c i))
    /\ (forall i, len c / sizeof <= i -> exists x, index a i w' = Throw x w').
Proof.
  intros Hfile Hlen. pose proof sizeof_range as Hsz.
  assert (H0 : 0 < sizeof) by lia.
  pose proof (Z.mul_div_le (len c) sizeof H0) as Hfloor.
  assert (Hmod : unsigned_modulus < size_t_modulus) by done.
  unfold array_open, bind.
  rewrite (alloc_open_existing w path c) by (done || lia).
  unfold alloc_size, alloc_map, to_unsigned. cbn [alloc__size alloc__map].
  rewrite Z.mod_small by lia.
  eexists _, _. split; [reflexivity |]. split; [reflexivity |].
  split; [reflexivity |]. split; [reflexivity |]. split; [reflexivity |].
  split; [reflexivity |]. split.
  - intros i Hi. unfold index. cbn [array__size array__po].
    destruct (Z.leb_spec (len c / sizeof) i); [lia |].
    split; [reflexivity |].
    by rewrite (load_head _ _ (i * sizeof) sizeof (len c) path (maps w) c)
      by (done || nia).
  - intros i Hi. unfold index. cbn [array__size].
    destruct (Z.leb_spec (len c / sizeof) i); [by eexists | lia].
Qed.

Lemma discovery_reads_the_file_witness :
  exists a w',
    array_open (T := demo.V) "f" demo.five = Ret a w'
    /\ array_size a = 5 / 3
    /\ alloc_initialized (array_base a) = 5
    /\ files w' = files demo.five /\ log w' = log demo.five
    /\ fds w' = fds demo.five
    /\ (forall i, 0 <= i < 5 / 3 ->
          index (T := demo.V) a i w' = Ret (array__po a + i * 3) w'
          /\ load (array__po a + i * 3) 3 w'
             = Some (element 3 [x01; x02; x03; x04; x05] i))
    /\ (forall i, 5 / 3 <= i ->
          exists x, index (T := demo.V) a i w' = Throw x w').
Proof.
  apply (discovery_reads_the_file (T := demo.V) demo.five "f"
           [x01; x02; x03; x04; x05]); [reflexivity | split; reflexivity].
Defined.

(** *** From nothing *)

Lemma array_ctor_fresh `{T : object_type} w path (args : ctor_args) n :
  files w !! path = None ->
  0 < n -> n * sizeof < size_t_modulus ->
  array_ctor n path args w
  = Ret (Array (Alloc (mapped_addr w) 0 (n * sizeof)) n (mapped_addr w))
        (World (<[path := concat (replicate (Z.to_nat n) (construct args))]> (files w))
               (fds w)
               (Mapping (mapped_addr w) (n * sizeof) path :: maps w)
               (next_addr (mapped (n * sizeof) path w))
               (heap_junk w)
               (log w ++ EvWrite (lowest_free (fds w)) (new_char_array (n * sizeof) w)
                      :: constructions (mapped_addr w) sizeof (construct args) 0 n)).
Proof.
  intros Hfile Hn Hmax. pose proof sizeof_range as Hsz.
  pose proof (array_ctor_grow w path args n) as Hrun. cbv zeta in Hrun.
  assert (Hc : contents path w = []) by (unfold contents; by rewrite Hfile).
  rewrite Hc in Hrun. change (len []) with 0 in Hrun.
  rewrite Z.div_0_l, Z.mul_0_l, !Z.sub_0_r in Hrun by lia.
  rewrite Hrun by nia. reflexivity.
Qed.

(** X6: what the sized constructor builds on a fresh path is found again
    after the handle is gone: teardown makes one unmap and writes
    nothing, and the array then opened by path alone has the same
    count and every element as it was constructed. *)
Theorem create_release_discover `{T : object_type} w path (args : ctor_args) n :
  files w !! path = None ->
  0 < n ->
  n * sizeof < unsigned_modulus ->
  exists a w1 w2 a' w3,
    array_ctor n path args w = Ret a w1
    /\ array_dtor a w1 = Ret tt w2
    /\ files w2 = files w1
    /\ array_open path w2 = Ret a' w3
    /\ array_size a' = n
    /\ files w3 = files w1
    /\ log w3 = log w1 ++ [EvMunmap (array__po a) (n * sizeof)]
    /\ (forall i, 0 <= i < n ->
          load (array__po a' + i * sizeof) sizeof w3 = Some (construct args)).
Proof.
  intros Hfile Hn Hmax. pose proof sizeof_range as Hsz.
  assert (Hmod : unsigned_modulus < size_t_modulus) by done.
  rewrite (array_ctor_fresh w path args n) by (done || lia).
  set (reps := concat (replicate (Z.to_nat n) (construct args))).
  assert (Hreps : len reps = n * sizeof).
  { subst reps. rewrite len_concat_replicate, construct_len. lia. }
  eexists _, _, _, _, _. split; [reflexivity |].
  unfold array_dtor, alloc_dtor. cbn [array_base alloc__map alloc__size].
  rewrite mapped_addr_nonzero.
  split; [reflexivity |]. split; [reflexivity |].
  unfold array_open, bind.
  erewrite (alloc_open_existing _ path reps);
    [ | cbn; apply lookup_insert_eq | nia ].
  unfold alloc_size, alloc_map, to_unsigned. cbn [alloc__size alloc__map].
  rewrite Hreps, Z.mod_small, Z.div_mul by nia.
  split; [reflexivity |]. split; [reflexivity |]. split; [reflexivity |].
  split; [reflexivity |].
  intros i Hi. cbn [array__po].
  erewrite (load_head _ _ (i * sizeof) sizeof (n * sizeof) path _ reps);
    [ | reflexivity | cbn; apply lookup_insert_eq | nia | nia | nia ].
  f_equal. fold (element sizeof reps i).
  subst reps. apply element_concat_replicate; [lia | apply construct_len | lia].
Qed.

Lemma create_release_discover_witness :
  exists a w1 w2 a' w3,
    array_ctor (T := demo.V) 2 "v" (x01, x02, x03) demo.bare = Ret a w1
    /\ array_dtor a w1 = Ret tt w2
    /\ files w2 = files w1
    /\ array_open (T := demo.V) "v" w2 = Ret a' w3
    /\ array_size a' = 2
    /\ files w3 = files w1
    /\ log w3 = log w1 ++ [EvMunmap (array__po a) (2 * 3)]
    /\ (forall i, 0 <= i < 2 ->
          load (array__po a' + i * 3) 3 w3 = Some [x01; x02; x03]).
Proof.
  apply (create_release_discover (T := demo.V) demo.bare "v" (x01, x02, x03) 2);
    reflexivity.
Defined.

(** X7: growing in two steps.  On a fresh path, a constructor for N1
    elements followed by one for N2 > N1 elements leaves a file of N1
    elements built from the first arguments and N2 - N1 built from the
    second; the second call constructs only the latter. *)
Theorem growth_in_two_steps `{T : object_type} w path (args1 args2 : ctor_args) n1 n2 :
  files w !! path = None ->
  0 < n1 < n2 ->
  n2 * sizeof < size_t_modulus ->
  exists a1 w1 a2 w2 fd buf,
    array_ctor n1 path args1 w = Ret a1 w1
    /\ array_ctor n2 path args2 w1 = Ret a2 w2
    /\ contents path w1 = concat (replicate (Z.to_nat n1) (construct args1))
    /\ contents path w2
       = concat (replicate (Z.to_nat n1) (construct args1))
         ++ concat (replicate (Z.to_nat (n2 - n1)) (construct args2))
    /\ log w2 = log w1 ++ EvWrite fd buf
                      :: constructions (array__po a2) sizeof (construct args2) n1 n2.
Proof.
  intros Hfile Hn Hmax. pose proof sizeof_range as Hsz.
  rewrite (array_ctor_fresh w path args1 n1) by (done || nia).
  set (reps := concat (replicate (Z.to_nat n1) (construct args1))).
  assert (Hreps : len reps = n1 * sizeof).
  { subst reps. rewrite len_concat_replicate, construct_len. lia. }
  set (w1 := World _ _ _ _ _ _).
  assert (Hc1 : contents path w1 = reps)
    by (unfold contents; cbn; by rewrite lookup_insert_eq).
  pose proof (array_ctor_grow w1 path args2 n2) as Hrun. cbv zeta in Hrun.
  rewrite Hc1, Hreps, Z.div_mul in Hrun by lia.
  rewrite take_ge in Hrun by (unfold len in Hreps; lia).
  eexists _, w1, _, _, _, _. split; [reflexivity |].
  split; [rewrite Hrun by nia; reflexivity |].
  split; [exact Hc1 |]. split; [| reflexivity].
  unfold contents. cbn. by rewrite lookup_insert_eq.
Qed.

Lemma growth_in_two_steps_witness :
  exists a1 w1 a2 w2 fd buf,
    array_ctor (T := demo.uchar) 1 "v" x01 demo.bare = Ret a1 w1
    /\ array_ctor (T := demo.uchar) 3 "v" x02 w1 = Ret a2 w2
    /\ contents "v" w1 = [x01]
    /\ contents "v" w2 = [x01] ++ [x02; x02]
    /\ log w2 = log w1 ++ EvWrite fd buf
                      :: constructions (array__po a2) 1 [x02] 1 3.
Proof.
  apply (growth_in_two_steps (T := demo.uchar) demo.bare "v" x01 x02 1 3);
    [reflexivity | split; reflexivity | reflexivity].
Defined.

(** *** Iterators *)

(** X8: after the sized constructor the range from [begin()] to [end()]
    is the mapping, byte for byte, and [operator[]] succeeds for exactly
    the indices whose element lies inside that range. *)
Theorem iteration_range_is_the_mapping `{T : object_type}
    w path (args : ctor_args) n :
  0 < n ->
  n * sizeof < size_t_modulus ->
  len (contents path w) < size_t_modulus ->
  exists a w',
    array_ctor n path args w = Ret a w'
    /\ array_end a - array_begin a = n * sizeof
    /\ maps w' = Mapping (array_begin a) (array_end a - array_begin a) path :: maps w
    /\ (forall i, index a i w' = Ret (array_begin a + i * sizeof) w'
                  <-> array_begin a + (i + 1) * sizeof <= array_end a).
Proof.
  intros Hn Hmax Hlen. pose proof sizeof_range as Hsz.
  set (c := contents path w) in *. pose proof (len_nonneg c) as Hc.
  assert (Hgen : forall base w1,
             maps w1 = Mapping (mapped_addr w) (n * sizeof) path :: maps w ->
             let a := Array base n (mapped_addr w) in
             array_end a - array_begin a = n * sizeof
             /\ maps w1 = Mapping (array_begin a) (array_end a - array_begin a) path
                          :: maps w
             /\ (forall i, index a i w1 = Ret (array_begin a + i * sizeof) w1
                           <-> array_begin a + (i + 1) * sizeof <= array_end a)).
  { intros base w1 Hmaps a. subst a.
    assert (Hd : array_end (Array base n (mapped_addr w))
                 - array_begin (Array base n (mapped_addr w)) = n * sizeof)
      by (unfold array_end, array_begin; cbn [array__size array__po]; lia).
    split; [exact Hd |]. split; [by rewrite Hd |].
    intros i. unfold index, array_end, array_begin. cbn [array__size array__po].
    destruct (Z.leb_spec n i); split; intros H'; try done; nia. }
  destruct (Z.le_gt_cases (n * sizeof) (len c)) as [Hle|Hgt].
  - assert (Hfile : files w !! path = Some c)
      by (apply contents_nonempty; fold c; nia).
    rewrite (array_ctor_enough w path args c) by (done || lia).
    eexists _, _. split; [reflexivity |]. by apply Hgen.
  - pose proof (array_ctor_grow w path args n) as Hrun. cbv zeta in Hrun.
    fold c in Hrun. rewrite Hrun by lia.
    eexists _, _. split; [reflexivity |]. by apply Hgen.
Qed.

Lemma iteration_range_is_the_mapping_witness :
  exists a w',
    array_ctor (T := demo.V) 2 "v" (x01, x02, x03) demo.bare = Ret a w'
    /\ array_end (T := demo.V) a - array_begin a = 2 * 3
    /\ maps w' = Mapping (array_begin a) (array_end (T := demo.V) a - array_begin a) "v"
                 :: maps demo.bare
    /\ (forall i, index (T := demo.V) a i w' = Ret (array_begin a + i * 3) w'
                  <-> array_begin a + (i + 1) * 3 <= array_end (T := demo.V) a).
Proof.
  apply (iteration_range_is_the_mapping (T := demo.V) demo.bare "v" (x01, x02, x03) 2);
    reflexivity.
Defined.

(** *** An element written, then found again *)

Lemma element_splice sz c v i j :
  0 < sz -> len v = sz -> 0 <= i -> 0 <= j -> (i + 1) * sz <= len c ->
  element sz (splice c (Z.to_nat (i * sz)) v) j
  = if j =? i then v else element sz c j.
Proof.
  intros Hsz Hv Hi Hj Hfit. unfold splice.
  assert (Hpre : len (take (Z.to_nat (i * sz)) c) = i * sz)
    by (unfold len in *; rewrite length_take; nia).
  destruct (Z.eqb_spec j i) as [->|Hne].
  - rewrite (element_app_r sz _ _ i i) by lia.
    rewrite Z.sub_diag. unfold element. cbn [Z.mul Z.to_nat drop].
    apply take_app_length'. unfold len in Hv. lia.
  - destruct (Z.lt_ge_cases j i).
    + rewrite element_app_l by nia.
      apply element_take; rewrite ?Z2Nat.id; nia.
    + rewrite app_assoc.
      rewrite (element_app_r sz _ _ (i + 1) j)
        by (rewrite ?len_app; lia).
      unfold element. rewrite drop_drop. do 2 f_equal.
      unfold len in Hv. nia.
Qed.

(** X9: an element overwritten through the reference that [operator[]]
    returns is still there after the handle is torn down and the array
    is opened again with the same count: the second constructor
    constructs nothing, whatever its arguments, the overwritten element
    reads as written and every other element as first constructed. *)
Theorem array_element_survives_reopen `{T : object_type}
    w path (args args2 : ctor_args) n i (v : list byte) :
  files w !! path = None ->
  0 < n ->
  n * sizeof < size_t_modulus ->
  0 <= i < n ->
  len v = sizeof ->
  exists a w1 p w2 w3 a' w4,
    array_ctor n path args w = Ret a w1
    /\ index a i w1 = Ret p w1
    /\ store p v w1 = Some w2
    /\ array_dtor a w2 = Ret tt w3
    /\ array_ctor n path args2 w3 = Ret a' w4
    /\ log w4 = log w3
    /\ (forall j, 0 <= j < n ->
          load (array__po a' + j * sizeof) sizeof w4
          = Some (if j =? i then v else construct args)).
Proof.
  intros Hfile Hn Hmax Hi Hv. pose proof sizeof_range as Hsz.
  rewrite (array_ctor_fresh w path args n) by (done || lia).
  set (reps := concat (replicate (Z.to_nat n) (construct args))).
  assert (Hreps : len reps = n * sizeof).
  { subst reps. rewrite len_concat_replicate, construct_len. lia. }
  set (w1 := World _ _ _ _ _ _).
  set (c2 := splice reps (Z.to_nat (i * sizeof)) v).
  assert (Hc2 : len c2 = n * sizeof).
  { subst c2. unfold len in *. rewrite splice_length by nia. lia. }
  eexists _, w1, _, _, _, _, _. split; [reflexivity |].
  split.
  { unfold index. cbn [array__size array__po].
    destruct (Z.leb_spec n i); [lia | reflexivity]. }
  split.
  { apply (store_head w1 _ (i * sizeof) (n * sizeof) path (maps w) reps);
      [reflexivity | cbn; apply lookup_insert_eq | nia | nia | nia]. }
  split.
  { unfold array_dtor, alloc_dtor. cbn [array_base alloc__map alloc__size].
    rewrite mapped_addr_nonzero. reflexivity. }
  fold c2.
  erewrite (array_ctor_enough _ path args2 c2);
    [ | cbn; apply lookup_insert_eq | lia | lia | lia ].
  split; [reflexivity |]. split; [reflexivity |].
  intros j Hj. cbn [array__po].
  erewrite (load_head _ _ (j * sizeof) sizeof (n * sizeof) path _ c2);
    [ | reflexivity | cbn; apply lookup_insert_eq | nia | nia | nia ].
  f_equal. fold (element sizeof c2 j). subst c2.
  rewrite element_splice by nia.
  destruct (j =? i); [reflexivity |].
  subst reps. apply element_concat_replicate; [lia | apply construct_len | lia].
Qed.

Lemma array_element_survives_reopen_witness :
  exists a w1 p w2 w3 a' w4,
    array_ctor (T := demo.uchar) 3 "v" x01 demo.bare = Ret a w1
    /\ index (T := demo.uchar) a 1 w1 = Ret p w1
    /\ store p [x2a] w1 = Some w2
    /\ array_dtor a w2 = Ret tt w3
    /\ array_ctor (T := demo.uchar) 3 "v" x09 w3 = Ret a' w4
    /\ log w4 = log w3
    /\ (forall j, 0 <= j < 3 ->
          load (array__po a' + j * 1) 1 w4
          = Some (if j =? 1 then [x2a] else [x01])).
Proof.
  apply (array_element_survives_reopen (T := demo.uchar) demo.bare "v"
           x01 x09 3 1 [x2a]);
    [reflexivity | reflexivity | reflexivity | split; [discriminate | reflexivity]
     | reflexivity].
Defined.

End facts.
